(** * The gralloc buffer handle and its four lifecycle operations

    A shallow embedding of [private_handle_t] (gralloc_priv.h) and of
    [gralloc_register_buffer], [gralloc_unregister_buffer], [gralloc_lock]
    and [gralloc_unlock] (gralloc_module.cpp), followed by the properties
    of the handle protocol.

    The C code mutates the struct behind the handle pointer and calls into
    the C library, the host module registry and the ION allocator.  The
    struct is threaded through a small state monad; every external call is
    appended to a trace, and what an external call answers is read from an
    environment. *)

From Stdlib Require Import ZArith List String Bool Lia.
Import ListNotations.
Local Open Scope Z_scope.

(** ** Platform headers

    Constants the sources take from headers that are not part of the
    repository: <errno.h>, <cutils/native_handle.h>, <hardware/gralloc.h>
    and the width of [size_t].  The C standard makes every errno macro a
    positive int. *)
Class Platform : Type := {
  sizeof_native_handle : Z;
  EINVAL : Z;
  EINVAL_pos : 0 < EINVAL;
  GRALLOC_USAGE_SW_READ_MASK : Z;
  GRALLOC_USAGE_SW_WRITE_MASK : Z;
  size_t_bits : Z
}.

(** The values of the 64-bit Android headers: [native_handle] is three
    ints before its flexible array member. *)
Definition android_arm64 : Platform := {|
  sizeof_native_handle := 12;
  EINVAL := 22;
  EINVAL_pos := eq_refl;
  GRALLOC_USAGE_SW_READ_MASK := 0x0000000F;
  GRALLOC_USAGE_SW_WRITE_MASK := 0x000000F0;
  size_t_bits := 64
|}.

(** ** The handle (gralloc_priv.h) *)

Inductive mali_gralloc_yuv_info : Set :=
| MALI_YUV_NO_INFO
| MALI_YUV_BT601_NARROW
| MALI_YUV_BT601_WIDE
| MALI_YUV_BT709_NARROW
| MALI_YUV_BT709_WIDE.

(** [private_handle_t : public native_handle]: the three fields of the
    envelope come first, then the members in declaration order.  The
    unions [base]/[padding], [attr_base]/[padding3] and [offset]/[padding4]
    are kept as the one integer they hold. *)
Record private_handle_t : Set := mk_private_handle {
  version : Z;
  numFds : Z;
  numInts : Z;
  share_fd : Z;
  share_attr_fd : Z;
  ion_hnd : Z;
  magic : Z;
  internal_format : Z;
  flags : Z;
  usage : Z;
  size : Z;
  width : Z;
  height : Z;
  format : Z;
  stride : Z;
  base : Z;
  lockState : Z;
  writeOwner : Z;
  pid : Z;
  attr_base : Z;
  yuv_info : mali_gralloc_yuv_info;
  fd : Z;
  offset : Z;
  min_pgsz : Z
}.

(** [buffer_handle_t] is a pointer to a handle; [None] is the null
    pointer. *)
Definition buffer_handle_t : Set := option private_handle_t.

Definition PRIV_FLAGS_FRAMEBUFFER : Z := 0x00000001.
Definition PRIV_FLAGS_USES_ION_COMPOUND_HEAP : Z := 0x00000002.
Definition PRIV_FLAGS_USES_ION : Z := 0x00000004.
Definition PRIV_FLAGS_USES_ION_DMA_HEAP : Z := 0x00000008.

Definition LOCK_STATE_READ_MASK : Z := 0x3FFFFFFF.

Definition GRALLOC_ARM_UMP_NUM_INTS : Z := 0.
Definition GRALLOC_ARM_NUM_FDS : Z := 1.
Definition GRALLOC_ARM_DMA_BUF_NUM_INTS : Z := 2.

Definition sNumInts : Z := 15 + GRALLOC_ARM_UMP_NUM_INTS + GRALLOC_ARM_DMA_BUF_NUM_INTS.
Definition sNumFds : Z := GRALLOC_ARM_NUM_FDS.
Definition sMagic : Z := 0x3141592.

(** Assignments [hnd->f = v] to the four members the operations write. *)
Definition set_base (v : Z) (h : private_handle_t) : private_handle_t :=
  mk_private_handle (version h) (numFds h) (numInts h) (share_fd h)
    (share_attr_fd h) (ion_hnd h) (magic h) (internal_format h) (flags h)
    (usage h) (size h) (width h) (height h) (format h) (stride h)
    v (lockState h) (writeOwner h) (pid h)
    (attr_base h) (yuv_info h) (fd h) (offset h) (min_pgsz h).

Definition set_lockState (v : Z) (h : private_handle_t) : private_handle_t :=
  mk_private_handle (version h) (numFds h) (numInts h) (share_fd h)
    (share_attr_fd h) (ion_hnd h) (magic h) (internal_format h) (flags h)
    (usage h) (size h) (width h) (height h) (format h) (stride h)
    (base h) v (writeOwner h) (pid h)
    (attr_base h) (yuv_info h) (fd h) (offset h) (min_pgsz h).

Definition set_writeOwner (v : Z) (h : private_handle_t) : private_handle_t :=
  mk_private_handle (version h) (numFds h) (numInts h) (share_fd h)
    (share_attr_fd h) (ion_hnd h) (magic h) (internal_format h) (flags h)
    (usage h) (size h) (width h) (height h) (format h) (stride h)
    (base h) (lockState h) v (pid h)
    (attr_base h) (yuv_info h) (fd h) (offset h) (min_pgsz h).

Definition set_pid (v : Z) (h : private_handle_t) : private_handle_t :=
  mk_private_handle (version h) (numFds h) (numInts h) (share_fd h)
    (share_attr_fd h) (ion_hnd h) (magic h) (internal_format h) (flags h)
    (usage h) (size h) (width h) (height h) (format h) (stride h)
    (base h) (lockState h) (writeOwner h) v
    (attr_base h) (yuv_info h) (fd h) (offset h) (min_pgsz h).

(** A C condition: an int is true when it is not zero. *)
Definition truthy (z : Z) : bool := negb (z =? 0).

(** ** The world outside the module *)

(** What the allocator's map primitive answers. *)
Inductive map_result : Set :=
| Mapped (address : Z)
| MapFailed (status : Z).

(** The answers of the external calls, fixed for one run of an
    operation. *)
Record env : Type := mk_env {
  getpid : Z;
  munmap : Z -> Z -> Z;
  hw_get_module : Z;
  ion_client : Z;
  allocator_map : Z -> Z -> map_result
}.

(** The external calls an operation makes, in order.  [AERR] carries the
    format string of the log line; the mutex is always [s_map_lock]. *)
Inductive event : Set :=
| AERR (fmt : string)
| pthread_mutex_lock
| pthread_mutex_unlock
| call_allocator_map (shared_fd bytes : Z)
| call_munmap (address bytes : Z)
| call_hw_get_module
| call_ion_sync_fd (client shared_fd : Z).

Definition is_ion_sync_fd (ev : event) : bool :=
  match ev with call_ion_sync_fd _ _ => true | _ => false end.

Definition is_munmap (ev : event) : bool :=
  match ev with call_munmap _ _ => true | _ => false end.

Definition is_AERR (ev : event) : bool :=
  match ev with AERR _ => true | _ => false end.

(** ** A state monad over the struct behind [hnd], with a call trace *)

Definition M (A : Type) : Type :=
  private_handle_t -> A * private_handle_t * list event.

Definition ret {A : Type} (a : A) : M A := fun h => (a, h, []).

Definition bind {A B : Type} (m : M A) (k : A -> M B) : M B :=
  fun h =>
    let '(a, h1, t1) := m h in
    let '(b, h2, t2) := k a h1 in
    (b, h2, t1 ++ t2).

Definition load {A : Type} (field : private_handle_t -> A) : M A :=
  fun h => (field h, h, []).

Definition store (assign : private_handle_t -> private_handle_t) : M unit :=
  fun h => (tt, assign h, []).

Definition emit (ev : event) : M unit := fun h => (tt, h, [ev]).

Declare Scope hnd_scope.
Delimit Scope hnd_scope with hnd.
Notation "x <- m ;; k" := (bind m (fun x => k))
  (at level 61, m at next level, right associativity) : hnd_scope.
Notation "m ;; k" := (bind m (fun _ => k))
  (at level 61, right associativity) : hnd_scope.

(** What an entry point leaves behind: its return value, the struct the
    handle points to afterwards, and the calls it made. *)
Record outcome (A : Type) : Type := mk_outcome {
  value : A;
  after : buffer_handle_t;
  calls : list event
}.
Arguments mk_outcome {A} _ _ _.
Arguments value {A} _.
Arguments after {A} _.
Arguments calls {A} _.

Definition run {A : Type} (m : M A) (hnd : private_handle_t) : outcome A :=
  let '(a, h, t) := m hnd in mk_outcome a (Some h) t.

Section Gralloc.

Context {P : Platform}.

Local Open Scope hnd_scope.

(** The conversion of [size_t size = hnd->size]. *)
Definition to_size_t (z : Z) : Z := z mod 2 ^ size_t_bits.

(** ** [private_handle_t::validate] and [dynamicCast] (gralloc_priv.h)

    [h->version] is compared with a [size_t] after the usual conversion;
    [sizeof(native_handle)] fits an int, so the comparison is the one on
    the integers. *)
Definition validate (h : buffer_handle_t) : Z :=
  match h with
  | None => - EINVAL
  | Some hnd =>
      if negb (version hnd =? sizeof_native_handle)
         || negb (numInts hnd =? sNumInts)
         || negb (numFds hnd =? sNumFds)
         || negb (magic hnd =? sMagic)
      then - EINVAL
      else 0
  end.

Definition dynamicCast (h : buffer_handle_t) : buffer_handle_t :=
  if validate h =? 0 then h else None.

(** ** The allocator back end *)

(** Modelled from the spec: [gralloc_backend_register] is declared in
    gralloc_module_allocator_specific.h and defined in a file of the
    repository that is not among the sources at hand.  Sections 4.3 and 6:
    register delegates to the allocator's primitive
    [map(shared_memory_descriptor, size) -> base_address | error], which
    returns the process-local base address; a map failure is propagated
    to the caller as failure. *)
Definition gralloc_backend_register (e : env) : M Z :=
  shared <- load share_fd ;;
  bytes <- load size ;;
  emit (call_allocator_map shared bytes) ;;
  match allocator_map e shared bytes with
  | Mapped address => store (set_base address) ;; ret 0
  | MapFailed status => ret status
  end.

(** ** The four entry points (gralloc_module.cpp)

    Each one first runs [validate]; past it the handle is cast to
    [private_handle_t*] and the body runs on the struct.  The null pointer
    never passes [validate], so the body is given for [Some hnd] only. *)

(** The UMP block of [gralloc_register_buffer] is compiled out
    ([GRALLOC_ARM_UMP_MODULE] is 0, [GRALLOC_ARM_DMA_BUF_MODULE] is 1). *)
Definition register_body (e : env) : M Z :=
  let retval := - EINVAL in
  emit pthread_mutex_lock ;;
  store (set_pid (getpid e)) ;;
  f <- load flags ;;
  retval <-
    (if truthy (Z.land f PRIV_FLAGS_FRAMEBUFFER) then
       emit (AERR "Can't register buffer %p as it is a framebuffer") ;;
       ret retval
     else if truthy (Z.land f PRIV_FLAGS_USES_ION) then
       gralloc_backend_register e
     else
       emit (AERR "unknown buffer flags not supported. flags = %d") ;;
       ret retval) ;;
  emit pthread_mutex_unlock ;;
  ret retval.

Definition gralloc_register_buffer (e : env) (handle : buffer_handle_t)
  : outcome Z :=
  if validate handle <? 0 then
    mk_outcome (- EINVAL) handle
      [AERR "Registering invalid buffer %p, returning error"]
  else
    match handle with
    | Some hnd => run (register_body e) hnd
    | None => mk_outcome (- EINVAL) None []
    end.

Definition unregister_body (e : env) : M Z :=
  state <- load lockState ;;
  (if truthy (Z.land state LOCK_STATE_READ_MASK) then
     emit (AERR "[unregister] handle %p still locked (state=%08x)")
   else ret tt) ;;
  f <- load flags ;;
  owner <- load pid ;;
  (if truthy (Z.land f PRIV_FLAGS_FRAMEBUFFER) then
     emit (AERR "Can't unregister buffer %p as it is a framebuffer")
   else if owner =? getpid e then
     emit pthread_mutex_lock ;;
     (if truthy (Z.land f PRIV_FLAGS_USES_ION) then
        address <- load base ;;
        bytes <- load size ;;
        emit (call_munmap address (to_size_t bytes)) ;;
        if munmap e address (to_size_t bytes) <? 0 then
          emit (AERR "Could not munmap base:%p size:%d '%s'")
        else ret tt
      else
        emit (AERR "Unregistering unknown buffer is not supported. Flags = %d")) ;;
     store (set_base 0) ;;
     store (set_lockState 0) ;;
     store (set_writeOwner 0) ;;
     emit pthread_mutex_unlock
   else
     emit (AERR "Trying to unregister buffer %p from process %d that was not created in current process: %d")) ;;
  ret 0.

Definition gralloc_unregister_buffer (e : env) (handle : buffer_handle_t)
  : outcome Z :=
  if validate handle <? 0 then
    mk_outcome (- EINVAL) handle
      [AERR "unregistering invalid buffer %p, returning error"]
  else
    match handle with
    | Some hnd => run (unregister_body e) hnd
    | None => mk_outcome (- EINVAL) None []
    end.

(** [gralloc_lock] returns its status and may assign [*vaddr]: the second
    component is [Some p] when [*vaddr = p] is executed and [None] when
    [*vaddr] is left alone.  The rectangle [l, t, w, h] is unused. *)
Definition lock_body (usage : Z) : M (Z * option Z) :=
  f <- load flags ;;
  (if truthy (Z.land f PRIV_FLAGS_USES_ION) then
     store (set_writeOwner (Z.land usage GRALLOC_USAGE_SW_WRITE_MASK))
   else ret tt) ;;
  vaddr <-
    (if truthy (Z.land usage
                  (Z.lor GRALLOC_USAGE_SW_READ_MASK GRALLOC_USAGE_SW_WRITE_MASK))
     then address <- load base ;; ret (Some address)
     else ret None) ;;
  ret (0, vaddr).

Definition gralloc_lock (e : env) (handle : buffer_handle_t) (usage : Z)
  : outcome (Z * option Z) :=
  if validate handle <? 0 then
    mk_outcome (- EINVAL, None) handle
      [AERR "Locking invalid buffer %p, returning error"]
  else
    match handle with
    | Some hnd => run (lock_body usage) hnd
    | None => mk_outcome (- EINVAL, None) None []
    end.

Definition unlock_body (e : env) : M Z :=
  f <- load flags ;;
  owner <- load writeOwner ;;
  (if truthy (Z.land f PRIV_FLAGS_USES_ION) && truthy owner then
     emit call_hw_get_module ;;
     if hw_get_module e =? 0 then
       shared <- load share_fd ;;
       emit (call_ion_sync_fd (ion_client e) shared)
     else
       emit (AERR "Couldnot get gralloc module for handle %p\n")
   else ret tt) ;;
  ret 0.

Definition gralloc_unlock (e : env) (handle : buffer_handle_t) : outcome Z :=
  if validate handle <? 0 then
    mk_outcome (- EINVAL) handle
      [AERR "Unlocking invalid buffer %p, returning error"]
  else
    match handle with
    | Some hnd => run (unlock_body e) hnd
    | None => mk_outcome (- EINVAL) None []
    end.

(** ** Vocabulary of the properties *)

(** The flag tests the entry points branch on. *)
Definition framebuffer_backed (h : private_handle_t) : Prop :=
  Z.land (flags h) PRIV_FLAGS_FRAMEBUFFER <> 0.

Definition ion_backed (h : private_handle_t) : Prop :=
  Z.land (flags h) PRIV_FLAGS_USES_ION <> 0.

(** What a lock request asks for. *)
Definition cpu_read (usage : Z) : Prop :=
  Z.land usage GRALLOC_USAGE_SW_READ_MASK <> 0.

Definition cpu_write (usage : Z) : Prop :=
  Z.land usage GRALLOC_USAGE_SW_WRITE_MASK <> 0.

(** The three members the spec names for [validate]. *)
Definition shape_matches (h : private_handle_t) : Prop :=
  magic h = sMagic /\ numInts h = sNumInts /\ numFds h = sNumFds.

(** The trace holds a cache synchronisation, an unmap. *)
Definition issues_sync (t : list event) : bool := existsb is_ion_sync_fd t.
Definition issues_munmap (t : list event) : bool := existsb is_munmap t.

(** ** Sample handles and environments

    A heap-backed buffer of one page as the constructor of
    [private_handle_t] leaves it on the 64-bit Android platform, owned by
    process 100 and mapped there. *)
Definition ion_handle : private_handle_t := {|
  version := 12; numFds := 1; numInts := 17;
  share_fd := 7; share_attr_fd := -1; ion_hnd := -1;
  magic := 0x3141592; internal_format := 0;
  flags := PRIV_FLAGS_USES_ION; usage := 0x33; size := 4096;
  width := 0; height := 0; format := 0; stride := 0;
  base := 0x7f0000001000; lockState := 0; writeOwner := 0; pid := 100;
  attr_base := 0; yuv_info := MALI_YUV_NO_INFO;
  fd := -1; offset := 0; min_pgsz := 4096
|}.

(** The same buffer after a lock that asked for CPU writes. *)
Definition ion_handle_written : private_handle_t :=
  set_writeOwner 0x20 ion_handle.

(** A framebuffer-backed handle of process 100. *)
Definition fb_handle : private_handle_t := {|
  version := 12; numFds := 1; numInts := 17;
  share_fd := -1; share_attr_fd := -1; ion_hnd := -1;
  magic := 0x3141592; internal_format := 0;
  flags := PRIV_FLAGS_FRAMEBUFFER; usage := 0x1a00; size := 8294400;
  width := 0; height := 0; format := 0; stride := 0;
  base := 0x7f0000400000; lockState := 0; writeOwner := 0; pid := 100;
  attr_base := 0; yuv_info := MALI_YUV_NO_INFO;
  fd := 9; offset := 0; min_pgsz := 4096
|}.

(** A handle whose magic, integer count and descriptor count are right
    and whose envelope carries version 0. *)
Definition stale_version_handle : private_handle_t := {|
  version := 0; numFds := 1; numInts := 17;
  share_fd := 7; share_attr_fd := -1; ion_hnd := -1;
  magic := 0x3141592; internal_format := 0;
  flags := PRIV_FLAGS_USES_ION; usage := 0x33; size := 4096;
  width := 0; height := 0; format := 0; stride := 0;
  base := 0; lockState := 0; writeOwner := 0; pid := 100;
  attr_base := 0; yuv_info := MALI_YUV_NO_INFO;
  fd := -1; offset := 0; min_pgsz := 4096
|}.

(** A handle whose [magic] is 0 instead of the sentinel. *)
Definition destroyed_handle : private_handle_t := {|
  version := 12; numFds := 1; numInts := 17;
  share_fd := 7; share_attr_fd := -1; ion_hnd := -1;
  magic := 0; internal_format := 0;
  flags := PRIV_FLAGS_USES_ION; usage := 0x33; size := 4096;
  width := 0; height := 0; format := 0; stride := 0;
  base := 0x7f0000001000; lockState := 0; writeOwner := 0x20; pid := 100;
  attr_base := 0; yuv_info := MALI_YUV_NO_INFO;
  fd := -1; offset := 0; min_pgsz := 4096
|}.

(** Process 100, where every external call succeeds. *)
Definition process_100 : env := {|
  getpid := 100;
  munmap := fun _ _ => 0;
  hw_get_module := 0;
  ion_client := 3;
  allocator_map := fun _ _ => Mapped 0x7f0000001000
|}.

(** Process 200, likewise. *)
Definition process_200 : env := {|
  getpid := 200;
  munmap := fun _ _ => 0;
  hw_get_module := 0;
  ion_client := 3;
  allocator_map := fun _ _ => Mapped 0x7f0000002000
|}.

(** Process 100 when the module registry does not resolve the gralloc
    module ([hw_get_module] answers [-ENOENT]) and [munmap] fails. *)
Definition process_100_degraded : env := {|
  getpid := 100;
  munmap := fun _ _ => -1;
  hw_get_module := -2;
  ion_client := 3;
  allocator_map := fun _ _ => MapFailed (-12)
|}.

(** ** Construction (gralloc_priv.h)

    The constructor runs on the storage of the new object.  Members
    without an initialiser ([share_attr_fd], [internal_format],
    [attr_base], [min_pgsz]) keep what the storage held; [pid] is
    [getpid()] of the constructing process. *)
Definition private_handle_ctor (e : env) (storage : private_handle_t)
    (flags_arg usage_arg size_arg base_arg lock_state fb_file fb_offset : Z)
  : private_handle_t :=
  mk_private_handle sizeof_native_handle sNumFds sNumInts
    (-1) (share_attr_fd storage) (-1)
    sMagic (internal_format storage) flags_arg usage_arg size_arg
    0 0 0 0
    base_arg lock_state 0 (getpid e)
    (attr_base storage) MALI_YUV_NO_INFO fb_file fb_offset
    (min_pgsz storage).

Definition usesPhysicallyContiguousMemory (h : private_handle_t) : bool :=
  if truthy (Z.land (flags h) PRIV_FLAGS_FRAMEBUFFER) then true else false.

(** ** Opening a device (gralloc_module.cpp)

    [strncmp] of the C library on strings given as the characters before
    their terminating NUL: at most [n] characters are compared as unsigned
    chars, and the comparison stops after a NUL. *)
Definition uchar (c : Ascii.ascii) : Z := Z.of_N (Ascii.N_of_ascii c).

Definition char_at_head (s : string) : Ascii.ascii :=
  match s with
  | EmptyString => Ascii.zero
  | String c _ => c
  end.

Definition string_tail (s : string) : string :=
  match s with
  | EmptyString => EmptyString
  | String _ rest => rest
  end.

Fixpoint strncmp (s1 s2 : string) (n : nat) : Z :=
  match n with
  | O => 0
  | S n' =>
      let c1 := uchar (char_at_head s1) in
      let c2 := uchar (char_at_head s2) in
      if negb (c1 =? c2) then c1 - c2
      else if c1 =? 0 then 0
      else strncmp (string_tail s1) (string_tail s2) n'
  end.

(** A string that holds no NUL of its own, as every C string does. *)
Fixpoint nul_free (s : string) : bool :=
  match s with
  | EmptyString => true
  | String c rest => negb (uchar c =? 0) && nul_free rest
  end.

Definition MALI_GRALLOC_HARDWARE_MAX_STR_LEN : nat := 8.

(** The device names of <hardware/gralloc.h>, as the comment on
    [MALI_GRALLOC_HARDWARE_MAX_STR_LEN] in gralloc_priv.h quotes them. *)
Definition GRALLOC_HARDWARE_GPU0 : string := "gpu0".
Definition GRALLOC_HARDWARE_FB0 : string := "fb0".

(** The two openers live in other files of the module; the status each
    returns for a name is read from the environment, and the call is
    traced. *)
Record device_env : Type := mk_device_env {
  alloc_device_open : string -> Z;
  framebuffer_device_open : string -> Z
}.

Inductive open_call : Set :=
| call_alloc_device_open (name : string)
| call_framebuffer_device_open (name : string).

Definition gralloc_device_open (d : device_env) (name : string)
  : Z * list open_call :=
  let status := - EINVAL in
  if strncmp name GRALLOC_HARDWARE_GPU0 MALI_GRALLOC_HARDWARE_MAX_STR_LEN =? 0
  then (alloc_device_open d name, [call_alloc_device_open name])
  else if strncmp name GRALLOC_HARDWARE_FB0 MALI_GRALLOC_HARDWARE_MAX_STR_LEN
          =? 0
  then (framebuffer_device_open d name, [call_framebuffer_device_open name])
  else (status, []).

(** ** Sequences of calls on one handle

    One call of an entry point, each with the environment it runs in; a
    sequence threads the struct from call to call and collects the
    statuses. *)
Inductive operation : Type :=
| op_register (e : env)
| op_unregister (e : env)
| op_lock (e : env) (usage : Z)
| op_unlock (e : env).

Definition apply_operation (o : operation) (handle : buffer_handle_t)
  : Z * buffer_handle_t :=
  match o with
  | op_register e =>
      (value (gralloc_register_buffer e handle),
       after (gralloc_register_buffer e handle))
  | op_unregister e =>
      (value (gralloc_unregister_buffer e handle),
       after (gralloc_unregister_buffer e handle))
  | op_lock e usage =>
      (fst (value (gralloc_lock e handle usage)),
       after (gralloc_lock e handle usage))
  | op_unlock e =>
      (value (gralloc_unlock e handle), after (gralloc_unlock e handle))
  end.

Fixpoint apply_operations (ops : list operation) (handle : buffer_handle_t)
  : list Z * buffer_handle_t :=
  match ops with
  | [] => ([], handle)
  | o :: rest =>
      let '(status, handle1) := apply_operation o handle in
      let '(statuses, handle2) := apply_operations rest handle1 in
      (status :: statuses, handle2)
  end.

Definition is_register (o : operation) : bool :=
  match o with op_register _ => true | _ => false end.

Definition is_access (o : operation) : bool :=
  match o with op_lock _ _ | op_unlock _ => true | _ => false end.

(** [h'] differs from [h] at most in [base], [lockState] and
    [writeOwner]. *)
Definition same_but_mapping (h h' : private_handle_t) : Prop :=
  h' = set_base (base h')
         (set_lockState (lockState h') (set_writeOwner (writeOwner h') h)).

(** [s_map_lock] along a trace: it is never taken while held nor released
    while free, and [munmap] is called only while it is held.  The result
    is whether the mutex is held at the end; [None] is a violation. *)
Fixpoint mutex_discipline (held : bool) (t : list event) : option bool :=
  match t with
  | [] => Some held
  | pthread_mutex_lock :: rest =>
      if held then None else mutex_discipline true rest
  | pthread_mutex_unlock :: rest =>
      if held then mutex_discipline false rest else None
  | call_munmap _ _ :: rest =>
      if held then mutex_discipline held rest else None
  | _ :: rest => mutex_discipline held rest
  end.

Definition is_mutex_call (ev : event) : bool :=
  match ev with
  | pthread_mutex_lock | pthread_mutex_unlock => true
  | _ => false
  end.

(** * Properties *)

(** ** C truth values and the result of [validate] *)

Lemma truthy_true (z : Z) : truthy z = true <-> z <> 0.
Proof.
  unfold truthy. destruct (Z.eqb_spec z 0) as [-> | Hz]; simpl; split;
    congruence.
Qed.

Lemma truthy_false (z : Z) : truthy z = false <-> z = 0.
Proof.
  unfold truthy. destruct (Z.eqb_spec z 0) as [-> | Hz]; simpl; split;
    congruence.
Qed.

Lemma minus_EINVAL_neg : - EINVAL < 0.
Proof. pose proof EINVAL_pos. lia. Qed.

Lemma validate_cases (handle : buffer_handle_t) :
  validate handle = 0 \/ validate handle = - EINVAL.
Proof.
  destruct handle as [h |]; simpl; [| now right].
  destruct (_ || _); [now right | now left].
Qed.

Lemma validate_zero_iff (handle : buffer_handle_t) :
  validate handle = 0 <->
  exists h, handle = Some h /\ version h = sizeof_native_handle /\
            shape_matches h.
Proof.
  pose proof minus_EINVAL_neg as Hneg. unfold shape_matches.
  destruct handle as [h |]; simpl.
  - destruct (Z.eqb_spec (version h) sizeof_native_handle) as [Hv | Hv];
      destruct (Z.eqb_spec (numInts h) sNumInts) as [Hi | Hi];
      destruct (Z.eqb_spec (numFds h) sNumFds) as [Hf | Hf];
      destruct (Z.eqb_spec (magic h) sMagic) as [Hm | Hm]; simpl;
      (split;
       [ intros H0; try lia; exists h; auto
       | intros (h' & Heq & Hv' & Hm' & Hi' & Hf'); injection Heq as <-;
         try reflexivity; contradiction ]).
  - split; [lia | intros (h' & Heq & _); discriminate].
Qed.

Lemma validate_ltb (handle : buffer_handle_t) :
  (validate handle <? 0) = negb (validate handle =? 0).
Proof.
  pose proof minus_EINVAL_neg as Hneg.
  destruct (validate_cases handle) as [-> | ->]; [reflexivity |].
  destruct (Z.ltb_spec (- EINVAL) 0), (Z.eqb_spec (- EINVAL) 0);
    simpl; lia || reflexivity.
Qed.

Lemma validate_passes (handle : buffer_handle_t) :
  validate handle = 0 -> (validate handle <? 0) = false.
Proof. intros H. rewrite validate_ltb, H. reflexivity. Qed.

Lemma validate_fails (handle : buffer_handle_t) :
  validate handle <> 0 -> (validate handle <? 0) = true.
Proof.
  intros H. rewrite validate_ltb.
  destruct (Z.eqb_spec (validate handle) 0); [contradiction | reflexivity].
Qed.

(** ** The entry points past and before the validity check *)

Lemma register_valid (e : env) (h : private_handle_t) :
  validate (Some h) = 0 ->
  gralloc_register_buffer e (Some h) = run (register_body e) h.
Proof.
  intros H. unfold gralloc_register_buffer.
  now rewrite (validate_passes _ H).
Qed.

Lemma unregister_valid (e : env) (h : private_handle_t) :
  validate (Some h) = 0 ->
  gralloc_unregister_buffer e (Some h) = run (unregister_body e) h.
Proof.
  intros H. unfold gralloc_unregister_buffer.
  now rewrite (validate_passes _ H).
Qed.

Lemma lock_valid (e : env) (h : private_handle_t) (usage : Z) :
  validate (Some h) = 0 ->
  gralloc_lock e (Some h) usage = run (lock_body usage) h.
Proof.
  intros H. unfold gralloc_lock. now rewrite (validate_passes _ H).
Qed.

Lemma unlock_valid (e : env) (h : private_handle_t) :
  validate (Some h) = 0 ->
  gralloc_unlock e (Some h) = run (unlock_body e) h.
Proof.
  intros H. unfold gralloc_unlock. now rewrite (validate_passes _ H).
Qed.

(** [set_pid] leaves the members read after it alone. *)
Lemma flags_set_pid (v : Z) (h : private_handle_t) :
  flags (set_pid v h) = flags h.
Proof. reflexivity. Qed.

Lemma share_fd_set_pid (v : Z) (h : private_handle_t) :
  share_fd (set_pid v h) = share_fd h.
Proof. reflexivity. Qed.

Lemma size_set_pid (v : Z) (h : private_handle_t) :
  size (set_pid v h) = size h.
Proof. reflexivity. Qed.

(** [run_body] unfolds the monad on the current struct, up to the next
    condition of the body; [run_cases] then follows the branch a
    hypothesis selects, or splits on the condition. *)
Ltac run_body :=
  cbv [run bind load store emit ret
       register_body unregister_body lock_body unlock_body
       gralloc_backend_register app value after calls fst snd];
  rewrite ?flags_set_pid, ?share_fd_set_pid, ?size_set_pid.

Ltac step_condition :=
  match goal with
  | H : ?c = _ |- context [if ?c then _ else _] => rewrite H
  | |- context [if ?c then _ else _] => destruct c eqn:?
  | |- context [match allocator_map ?e ?a ?b with _ => _ end] =>
      destruct (allocator_map e a b) eqn:?
  end.

Ltac run_cases := run_body; repeat (step_condition; run_body).

(** The writes of the operations do not touch what [validate] reads. *)
Lemma validate_set_writeOwner (v : Z) (h : private_handle_t) :
  validate (Some (set_writeOwner v h)) = validate (Some h).
Proof. reflexivity. Qed.

Lemma validate_set_pid (v : Z) (h : private_handle_t) :
  validate (Some (set_pid v h)) = validate (Some h).
Proof. reflexivity. Qed.

Lemma validate_unmapped (h : private_handle_t) :
  validate (Some (set_writeOwner 0 (set_lockState 0 (set_base 0 h)))) =
  validate (Some h).
Proof. reflexivity. Qed.

(** What [lock] does to a valid handle, in one equation. *)
Lemma lock_run (e : env) (h : private_handle_t) (usage : Z) :
  validate (Some h) = 0 ->
  gralloc_lock e (Some h) usage =
  mk_outcome
    (0, if truthy (Z.land usage (Z.lor GRALLOC_USAGE_SW_READ_MASK
                                   GRALLOC_USAGE_SW_WRITE_MASK))
        then Some (base h) else None)
    (Some (if truthy (Z.land (flags h) PRIV_FLAGS_USES_ION)
           then set_writeOwner (Z.land usage GRALLOC_USAGE_SW_WRITE_MASK) h
           else h))
    [].
Proof.
  intros H. rewrite (lock_valid e h usage H). run_body.
  destruct (truthy (Z.land (flags h) PRIV_FLAGS_USES_ION));
    destruct (truthy (Z.land usage _)); reflexivity.
Qed.

(** Asking for CPU access is asking for a read bit or a write bit. *)
Lemma cpu_usage_iff (usage : Z) :
  truthy (Z.land usage (Z.lor GRALLOC_USAGE_SW_READ_MASK
                          GRALLOC_USAGE_SW_WRITE_MASK)) = true <->
  cpu_read usage \/ cpu_write usage.
Proof.
  rewrite truthy_true, Z.land_lor_distr_r. unfold cpu_read, cpu_write.
  split.
  - intros H.
    destruct (Z.eq_dec (Z.land usage GRALLOC_USAGE_SW_READ_MASK) 0) as [Hr | Hr];
      [| now left].
    right. intros Hw. apply H. rewrite Hr, Hw. reflexivity.
  - intros H Hor. apply Z.lor_eq_0_iff in Hor. destruct Hor, H; contradiction.
Qed.

(** Before the check: a handle that fails [validate] is answered with
    [-EINVAL] and a log line, and nothing else happens. *)
Lemma entry_points_invalid (e : env) (handle : buffer_handle_t) (usage : Z) :
  validate handle <> 0 ->
  gralloc_register_buffer e handle =
    mk_outcome (- EINVAL) handle
      [AERR "Registering invalid buffer %p, returning error"] /\
  gralloc_unregister_buffer e handle =
    mk_outcome (- EINVAL) handle
      [AERR "unregistering invalid buffer %p, returning error"] /\
  gralloc_lock e handle usage =
    mk_outcome (- EINVAL, None) handle
      [AERR "Locking invalid buffer %p, returning error"] /\
  gralloc_unlock e handle =
    mk_outcome (- EINVAL) handle
      [AERR "Unlocking invalid buffer %p, returning error"].
Proof.
  intros H. apply validate_fails in H.
  unfold gralloc_register_buffer, gralloc_unregister_buffer, gralloc_lock,
    gralloc_unlock.
  rewrite H. repeat split.
Qed.

(** Unregister by the owning process: the struct is left unmapped. *)
Lemma unregister_owner_run (e : env) (h : private_handle_t) :
  validate (Some h) = 0 -> ~ framebuffer_backed h -> pid h = getpid e ->
  value (gralloc_unregister_buffer e (Some h)) = 0 /\
  after (gralloc_unregister_buffer e (Some h)) =
    Some (set_writeOwner 0 (set_lockState 0 (set_base 0 h))).
Proof.
  intros Hv Hfb Hpid. rewrite (unregister_valid e h Hv).
  assert (Hfb' : truthy (Z.land (flags h) PRIV_FLAGS_FRAMEBUFFER) = false).
  { apply truthy_false. unfold framebuffer_backed in Hfb. lia. }
  apply Z.eqb_eq in Hpid.
  run_cases; split; reflexivity.
Qed.

(** What [unregister] does to a valid handle, in one equation. *)
Lemma unregister_run (e : env) (h : private_handle_t) :
  validate (Some h) = 0 ->
  gralloc_unregister_buffer e (Some h) =
  mk_outcome 0
    (Some (if truthy (Z.land (flags h) PRIV_FLAGS_FRAMEBUFFER) then h
           else if pid h =? getpid e
                then set_writeOwner 0 (set_lockState 0 (set_base 0 h))
                else h))
    ((if truthy (Z.land (lockState h) LOCK_STATE_READ_MASK)
      then [AERR "[unregister] handle %p still locked (state=%08x)"]
      else []) ++
     (if truthy (Z.land (flags h) PRIV_FLAGS_FRAMEBUFFER)
      then [AERR "Can't unregister buffer %p as it is a framebuffer"]
      else if pid h =? getpid e
      then pthread_mutex_lock ::
           (if truthy (Z.land (flags h) PRIV_FLAGS_USES_ION)
            then call_munmap (base h) (to_size_t (size h)) ::
                 (if munmap e (base h) (to_size_t (size h)) <? 0
                  then [AERR "Could not munmap base:%p size:%d '%s'"]
                  else [])
            else [AERR "Unregistering unknown buffer is not supported. Flags = %d"])
           ++ [pthread_mutex_unlock]
      else [AERR "Trying to unregister buffer %p from process %d that was not created in current process: %d"])).
Proof.
  intros Hv. rewrite (unregister_valid e h Hv). run_cases; reflexivity.
Qed.

(** ** The validity predicate *)

(** C1, as the code has it: [validate] succeeds exactly on a non-null
    handle whose envelope version is the size of the native-handle header
    and whose magic, integer count and descriptor count are the fixed
    constants; on every other handle, so on a mismatch in any single one
    of them, it fails with the negative invalid-argument code. *)
Theorem validate_succeeds_iff (handle : buffer_handle_t) :
  (validate handle = 0 <->
   exists h, handle = Some h /\ version h = sizeof_native_handle /\
             magic h = sMagic /\ numInts h = sNumInts /\ numFds h = sNumFds)
  /\ (validate handle = 0 \/
      (validate handle = - EINVAL /\ validate handle < 0)).
Proof.
  split.
  - apply validate_zero_iff.
  - destruct (validate_cases handle) as [H | H]; [now left | right].
    split; [exact H | rewrite H; apply minus_EINVAL_neg].
Qed.

(** C9: a handle that is null, or whose magic, integer count and
    descriptor count match while its envelope version is not the size of
    the native-handle header, fails [validate] with the invalid-argument
    code, and [dynamicCast] gives no typed view of it. *)
Theorem validate_rejects_null_and_version (handle : buffer_handle_t) :
  (forall h, handle = Some h ->
             shape_matches h /\ version h <> sizeof_native_handle) ->
  validate handle = - EINVAL /\ validate handle < 0 /\
  dynamicCast handle = None.
Proof.
  intros Hh.
  assert (Hnz : validate handle <> 0).
  { rewrite validate_zero_iff. intros (h & Heq & Hv & _).
    destruct (Hh h Heq) as [_ Hne]. contradiction. }
  destruct (validate_cases handle) as [H | H]; [contradiction |].
  pose proof minus_EINVAL_neg as Hneg.
  repeat split; [exact H | lia |].
  unfold dynamicCast.
  destruct (Z.eqb_spec (validate handle) 0); [contradiction | reflexivity].
Qed.

(** C8: on a handle that fails [validate], each of the four entry points
    returns the negative invalid-argument code at once: the struct behind
    the handle is left as it was, no access pointer is stored, and the
    only call made is the log line, so nothing but the verdict of
    [validate] is read from the handle. *)
Theorem invalid_handle_fails_fast (e : env) (handle : buffer_handle_t)
    (usage : Z) :
  validate handle <> 0 ->
  - EINVAL < 0 /\
  gralloc_register_buffer e handle =
    mk_outcome (- EINVAL) handle
      [AERR "Registering invalid buffer %p, returning error"] /\
  gralloc_unregister_buffer e handle =
    mk_outcome (- EINVAL) handle
      [AERR "unregistering invalid buffer %p, returning error"] /\
  gralloc_lock e handle usage =
    mk_outcome (- EINVAL, None) handle
      [AERR "Locking invalid buffer %p, returning error"] /\
  gralloc_unlock e handle =
    mk_outcome (- EINVAL) handle
      [AERR "Unlocking invalid buffer %p, returning error"].
Proof.
  intros H. split; [apply minus_EINVAL_neg |].
  exact (entry_points_invalid e handle usage H).
Qed.

(** ** Registration *)

(** C4: on a valid framebuffer-flagged handle, register returns the
    negative failure code without calling the allocator, and unregister
    neither unmaps nor clears anything: the struct is left as it was and
    only the diagnostics are logged. *)
Theorem framebuffer_rejected (e : env) (h : private_handle_t) :
  validate (Some h) = 0 -> framebuffer_backed h ->
  value (gralloc_register_buffer e (Some h)) = - EINVAL /\
  value (gralloc_register_buffer e (Some h)) < 0 /\
  calls (gralloc_register_buffer e (Some h)) =
    [pthread_mutex_lock;
     AERR "Can't register buffer %p as it is a framebuffer";
     pthread_mutex_unlock] /\
  after (gralloc_unregister_buffer e (Some h)) = Some h /\
  issues_munmap (calls (gralloc_unregister_buffer e (Some h))) = false /\
  forallb is_AERR (calls (gralloc_unregister_buffer e (Some h))) = true.
Proof.
  intros Hv Hfb. apply truthy_true in Hfb.
  rewrite (register_valid e h Hv), (unregister_valid e h Hv).
  pose proof minus_EINVAL_neg as Hneg.
  run_cases; repeat split; assumption.
Qed.


(** The heap-backed path, through the modelled back end: the caller's pid
    is recorded whatever the allocator answers, and a successful map is
    stored in [base]. *)
Lemma register_ion_run (e : env) (h : private_handle_t) :
  validate (Some h) = 0 -> ~ framebuffer_backed h -> ion_backed h ->
  gralloc_register_buffer e (Some h) =
  match allocator_map e (share_fd h) (size h) with
  | Mapped address =>
      mk_outcome 0 (Some (set_base address (set_pid (getpid e) h)))
        [pthread_mutex_lock; call_allocator_map (share_fd h) (size h);
         pthread_mutex_unlock]
  | MapFailed status =>
      mk_outcome status (Some (set_pid (getpid e) h))
        [pthread_mutex_lock; call_allocator_map (share_fd h) (size h);
         pthread_mutex_unlock]
  end.
Proof.
  intros Hv Hfb Hion. rewrite (register_valid e h Hv).
  assert (Hfb' : truthy (Z.land (flags h) PRIV_FLAGS_FRAMEBUFFER) = false).
  { apply truthy_false. unfold framebuffer_backed in Hfb. lia. }
  apply truthy_true in Hion.
  run_cases; reflexivity.
Qed.

(** C3: on a valid handle that is not framebuffer-backed and whose
    recorded pid is not the caller's, unregister returns 0, leaves every
    member of the handle as it was, and unmaps nothing. *)
Theorem unregister_foreign_process_noop (e : env) (h : private_handle_t) :
  validate (Some h) = 0 -> ~ framebuffer_backed h -> pid h <> getpid e ->
  value (gralloc_unregister_buffer e (Some h)) = 0 /\
  after (gralloc_unregister_buffer e (Some h)) = Some h /\
  issues_munmap (calls (gralloc_unregister_buffer e (Some h))) = false /\
  forallb is_AERR (calls (gralloc_unregister_buffer e (Some h))) = true.
Proof.
  intros Hv Hfb Hpid. rewrite (unregister_valid e h Hv).
  assert (Hfb' : truthy (Z.land (flags h) PRIV_FLAGS_FRAMEBUFFER) = false).
  { apply truthy_false. unfold framebuffer_backed in Hfb. lia. }
  apply Z.eqb_neq in Hpid.
  run_cases; repeat split.
Qed.

(** C5, as the code has it: on a valid handle that is not
    framebuffer-backed and whose recorded pid is the caller's, unregister
    returns 0 and leaves [base], [lockState] and [writeOwner] zero
    whatever [munmap] answers.  A second unregister from the same process
    returns 0 again and leaves the handle, those three members included,
    as the first call left it; it is not idle, though: it takes
    [s_map_lock] again and, when the handle carries the ION flag, calls
    [munmap] again, on base 0 with the handle's size. *)
Theorem unregister_owner_zeroes (e e' : env) (h : private_handle_t) :
  validate (Some h) = 0 -> ~ framebuffer_backed h ->
  pid h = getpid e -> getpid e' = getpid e ->
  exists h1,
    value (gralloc_unregister_buffer e (Some h)) = 0 /\
    after (gralloc_unregister_buffer e (Some h)) = Some h1 /\
    base h1 = 0 /\ lockState h1 = 0 /\ writeOwner h1 = 0 /\
    value (gralloc_unregister_buffer e' (Some h1)) = 0 /\
    after (gralloc_unregister_buffer e' (Some h1)) = Some h1 /\
    filter is_mutex_call (calls (gralloc_unregister_buffer e' (Some h1))) =
      [pthread_mutex_lock; pthread_mutex_unlock] /\
    (ion_backed h ->
     filter is_munmap (calls (gralloc_unregister_buffer e' (Some h1))) =
       [call_munmap 0 (size h mod 2 ^ size_t_bits)]) /\
    (~ ion_backed h ->
     issues_munmap (calls (gralloc_unregister_buffer e' (Some h1))) = false).
Proof.
  intros Hv Hfb Hpid Hsame.
  exists (set_writeOwner 0 (set_lockState 0 (set_base 0 h))).
  destruct (unregister_owner_run e h Hv Hfb Hpid) as [Hret Hafter].
  assert (Hpid' : pid (set_writeOwner 0 (set_lockState 0 (set_base 0 h))) =
                  getpid e') by (rewrite Hsame; exact Hpid).
  assert (Hv1 : validate (Some (set_writeOwner 0 (set_lockState 0
                                  (set_base 0 h)))) = 0)
    by exact (eq_trans (validate_unmapped h) Hv).
  destruct (unregister_owner_run e' _ Hv1 Hfb Hpid') as [Hret' Hafter'].
  do 7 (split; [first [assumption | reflexivity] |]).
  assert (Hfb' : truthy (Z.land (flags h) PRIV_FLAGS_FRAMEBUFFER) = false).
  { apply truthy_false. unfold framebuffer_backed in Hfb. lia. }
  assert (Hown : (pid h =? getpid e') = true)
    by (apply Z.eqb_eq; congruence).
  rewrite (unregister_run e' _ Hv1). cbv [calls].
  change (lockState (set_writeOwner 0 (set_lockState 0 (set_base 0 h))))
    with 0.
  change (flags (set_writeOwner 0 (set_lockState 0 (set_base 0 h))))
    with (flags h).
  change (pid (set_writeOwner 0 (set_lockState 0 (set_base 0 h))))
    with (pid h).
  change (base (set_writeOwner 0 (set_lockState 0 (set_base 0 h)))) with 0.
  change (size (set_writeOwner 0 (set_lockState 0 (set_base 0 h))))
    with (size h).
  change (truthy (Z.land 0 LOCK_STATE_READ_MASK)) with false.
  rewrite Hfb', Hown. fold (to_size_t (size h)).
  unfold ion_backed. rewrite <- truthy_true.
  destruct (truthy (Z.land (flags h) PRIV_FLAGS_USES_ION));
    destruct (munmap e' 0 (to_size_t (size h)) <? 0);
    (split; [reflexivity |]); split; intros H;
    first [reflexivity | discriminate H | now contradiction H].
Qed.

(** ** Access synchronisation *)

(** What [unlock] does to a valid handle, in one equation. *)
Lemma unlock_run (e : env) (h : private_handle_t) :
  validate (Some h) = 0 ->
  gralloc_unlock e (Some h) =
  mk_outcome 0 (Some h)
    (if truthy (Z.land (flags h) PRIV_FLAGS_USES_ION) && truthy (writeOwner h)
     then [call_hw_get_module;
           if hw_get_module e =? 0
           then call_ion_sync_fd (ion_client e) (share_fd h)
           else AERR "Couldnot get gralloc module for handle %p\n"]
     else []).
Proof.
  intros Hv. rewrite (unlock_valid e h Hv). run_cases; reflexivity.
Qed.

(** When a valid heap-backed handle is unlocked, the struct is left as it
    was, and the cache is synchronised exactly when [writeOwner] is set
    and the module registry resolves the gralloc module. *)
Lemma unlock_sync_iff (e : env) (h : private_handle_t) :
  validate (Some h) = 0 -> ion_backed h ->
  value (gralloc_unlock e (Some h)) = 0 /\
  after (gralloc_unlock e (Some h)) = Some h /\
  (issues_sync (calls (gralloc_unlock e (Some h))) = true <->
   writeOwner h <> 0 /\ hw_get_module e = 0).
Proof.
  intros Hv Hion. rewrite (unlock_run e h Hv). cbv [value after calls].
  apply truthy_true in Hion. rewrite Hion. cbv [andb].
  split; [reflexivity |]. split; [reflexivity |]. split.
  - destruct (truthy (writeOwner h)) eqn:Hw; [| discriminate].
    apply truthy_true in Hw.
    destruct (Z.eqb_spec (hw_get_module e) 0) as [Hm | Hm];
      [intros _; split; assumption | discriminate].
  - intros [Hw Hm]. apply truthy_true in Hw. rewrite Hw, Hm. reflexivity.
Qed.

(** C2, as the code has it: on a valid heap-backed handle, a lock that
    asks for CPU writes sets [writeOwner]; a following lock that asks for
    none clears it; unlock changes nothing in the handle, so [writeOwner]
    stays until the next lock, and unlock calls [ion_sync_fd] if and only
    if [writeOwner] is set when it runs and the lookup of the gralloc
    module succeeds. *)
Theorem lock_unlock_write_owner (e : env) (h : private_handle_t)
    (rw ro : Z) :
  validate (Some h) = 0 -> ion_backed h -> cpu_write rw -> ~ cpu_write ro ->
  exists h1 h2,
    after (gralloc_lock e (Some h) rw) = Some h1 /\ writeOwner h1 <> 0 /\
    after (gralloc_lock e (Some h1) ro) = Some h2 /\ writeOwner h2 = 0 /\
    after (gralloc_unlock e (Some h)) = Some h /\
    after (gralloc_unlock e (Some h1)) = Some h1 /\
    (issues_sync (calls (gralloc_unlock e (Some h))) = true <->
     writeOwner h <> 0 /\ hw_get_module e = 0) /\
    (issues_sync (calls (gralloc_unlock e (Some h1))) = true <->
     hw_get_module e = 0) /\
    issues_sync (calls (gralloc_unlock e (Some h2))) = false.
Proof.
  intros Hv Hion Hrw Hro.
  assert (Hion' : truthy (Z.land (flags h) PRIV_FLAGS_USES_ION) = true)
    by now apply truthy_true.
  exists (set_writeOwner (Z.land rw GRALLOC_USAGE_SW_WRITE_MASK) h).
  exists (set_writeOwner (Z.land ro GRALLOC_USAGE_SW_WRITE_MASK) h).
  assert (Hv1 : forall v, validate (Some (set_writeOwner v h)) = 0)
    by (intros v; exact Hv).
  rewrite (lock_run e h rw Hv), (lock_run e _ ro (Hv1 _)).
  change (flags (set_writeOwner (Z.land rw GRALLOC_USAGE_SW_WRITE_MASK) h))
    with (flags h).
  rewrite Hion'. cbv [after].
  destruct (unlock_sync_iff e h Hv Hion) as (_ & Hafter & Hsync).
  destruct (unlock_sync_iff e _ (Hv1 (Z.land rw GRALLOC_USAGE_SW_WRITE_MASK))
              Hion) as (_ & Hafter1 & Hsync1).
  destruct (unlock_sync_iff e _ (Hv1 (Z.land ro GRALLOC_USAGE_SW_WRITE_MASK))
              Hion) as (_ & _ & Hsync2).
  assert (Hclear : Z.land ro GRALLOC_USAGE_SW_WRITE_MASK = 0).
  { unfold cpu_write in Hro. lia. }
  split; [reflexivity |]. split; [exact Hrw |].
  split; [reflexivity |]. split; [exact Hclear |].
  split; [exact Hafter |]. split; [exact Hafter1 |].
  split; [exact Hsync |]. split.
  - rewrite Hsync1. split; [intros [_ Hm]; exact Hm |].
    intros Hm. split; [exact Hrw | exact Hm].
  - apply not_true_is_false. intros Hs.
    apply Hsync2 in Hs. destruct Hs as [Hw _]. contradiction.
Qed.

(** C7: on a valid handle, lock returns 0 and stores the handle's [base]
    through [vaddr] if and only if the usage holds a CPU read bit or a CPU
    write bit; with neither, nothing is stored, mapped or not. *)
Theorem lock_vaddr_iff_cpu_usage (e : env) (h : private_handle_t)
    (usage : Z) :
  validate (Some h) = 0 ->
  fst (value (gralloc_lock e (Some h) usage)) = 0 /\
  (snd (value (gralloc_lock e (Some h) usage)) = Some (base h) <->
   cpu_read usage \/ cpu_write usage) /\
  (snd (value (gralloc_lock e (Some h) usage)) = None <->
   ~ cpu_read usage /\ ~ cpu_write usage).
Proof.
  intros Hv. rewrite (lock_run e h usage Hv). cbv [value fst snd].
  pose proof (cpu_usage_iff usage) as Hcpu.
  destruct (truthy (Z.land usage _)).
  - assert (Hyes : cpu_read usage \/ cpu_write usage) by now apply Hcpu.
    split; [reflexivity |]. split; split; try tauto; discriminate.
  - assert (Hno : ~ (cpu_read usage \/ cpu_write usage))
      by (intros Hc; apply Hcpu in Hc; discriminate).
    split; [reflexivity |]. split; split; try tauto; discriminate.
Qed.

(** C10: lock and unlock return a non-zero result exactly when [validate]
    fails.  On a handle that passes [validate] both return 0 whatever its
    flags, lock state and mapping are; a lock that asks for CPU access
    then hands back the stored [base], which is zero once the owning
    process has unregistered the handle. *)
Theorem lock_unlock_fail_iff_invalid (e : env) (handle : buffer_handle_t)
    (usage : Z) :
  (fst (value (gralloc_lock e handle usage)) <> 0 <-> validate handle <> 0) /\
  (value (gralloc_unlock e handle) <> 0 <-> validate handle <> 0) /\
  (forall h, handle = Some h -> validate handle = 0 ->
     cpu_read usage \/ cpu_write usage ->
     value (gralloc_lock e handle usage) = (0, Some (base h)) /\
     value (gralloc_unlock e handle) = 0 /\
     forall e0 h1,
       ~ framebuffer_backed h -> pid h = getpid e0 ->
       after (gralloc_unregister_buffer e0 handle) = Some h1 ->
       value (gralloc_lock e (Some h1) usage) = (0, Some 0) /\
       value (gralloc_unlock e (Some h1)) = 0).
Proof.
  pose proof minus_EINVAL_neg as Hneg.
  assert (Hcases : validate handle = 0 \/ validate handle <> 0) by lia.
  split; [| split].
  - destruct Hcases as [Hv | Hv].
    + destruct (proj1 (validate_zero_iff handle) Hv) as (h & -> & _).
      rewrite (lock_run e h usage Hv). cbv [value fst]. lia.
    + destruct (entry_points_invalid e handle usage Hv) as (_ & _ & -> & _).
      cbv [value fst]. split; [intros _; exact Hv | lia].
  - destruct Hcases as [Hv | Hv].
    + destruct (proj1 (validate_zero_iff handle) Hv) as (h & -> & _).
      rewrite (unlock_run e h Hv). cbv [value]. lia.
    + destruct (entry_points_invalid e handle usage Hv) as (_ & _ & _ & ->).
      cbv [value]. split; [intros _; exact Hv | lia].
  - intros h -> Hv Hcpu. apply cpu_usage_iff in Hcpu.
    rewrite (lock_run e h usage Hv), (unlock_run e h Hv), Hcpu.
    cbv [value]. split; [reflexivity |]. split; [reflexivity |].
    intros e0 h1 Hfb Hpid Hafter.
    destruct (unregister_owner_run e0 h Hv Hfb Hpid) as [_ Hafter'].
    rewrite Hafter in Hafter'. injection Hafter' as ->.
    assert (Hv1 : validate (Some (set_writeOwner 0 (set_lockState 0
                                    (set_base 0 h)))) = 0) by exact Hv.
    rewrite (lock_run e _ usage Hv1), (unlock_run e _ Hv1), Hcpu.
    split; reflexivity.
Qed.

(** * Further properties of the code *)

(** ** Construction and the typed view *)

(** X1: whatever the arguments and whatever the storage held, a handle
    fresh from the constructor passes [validate], [dynamicCast] hands it
    back unchanged, it names the constructing process and it has no write
    owner. *)
Theorem constructed_handle_validates (e : env) (storage : private_handle_t)
    (flags_arg usage_arg size_arg base_arg lock_state fb_file fb_offset : Z) :
  validate (Some (private_handle_ctor e storage flags_arg usage_arg size_arg
                    base_arg lock_state fb_file fb_offset)) = 0 /\
  dynamicCast (Some (private_handle_ctor e storage flags_arg usage_arg
                       size_arg base_arg lock_state fb_file fb_offset)) =
    Some (private_handle_ctor e storage flags_arg usage_arg size_arg
            base_arg lock_state fb_file fb_offset) /\
  pid (private_handle_ctor e storage flags_arg usage_arg size_arg
         base_arg lock_state fb_file fb_offset) = getpid e /\
  writeOwner (private_handle_ctor e storage flags_arg usage_arg size_arg
                base_arg lock_state fb_file fb_offset) = 0.
Proof.
  assert (Hv : validate (Some (private_handle_ctor e storage flags_arg
                                 usage_arg size_arg base_arg lock_state
                                 fb_file fb_offset)) = 0).
  { apply validate_zero_iff. eexists. split; [reflexivity |].
    repeat split. }
  split; [exact Hv |]. split; [| split; reflexivity].
  unfold dynamicCast. rewrite Hv. reflexivity.
Qed.

(** X3: [dynamicCast] never hands out an unchecked view: its result is
    either null or the handle itself, which then passes [validate]; it is
    non-null exactly when [validate] succeeds, and casting twice is
    casting once. *)
Theorem dynamicCast_checked (handle : buffer_handle_t) :
  (dynamicCast handle = None \/
   (dynamicCast handle = handle /\ validate handle = 0)) /\
  (dynamicCast handle <> None <-> validate handle = 0) /\
  dynamicCast (dynamicCast handle) = dynamicCast handle.
Proof.
  pose proof minus_EINVAL_neg as Hneg.
  assert (Hnull : dynamicCast None = None).
  { unfold dynamicCast. simpl.
    destruct (Z.eqb_spec (- EINVAL) 0); [lia | reflexivity]. }
  destruct (validate_cases handle) as [Hv | Hv].
  - assert (Hcast : dynamicCast handle = handle)
      by (unfold dynamicCast; rewrite Hv; reflexivity).
    rewrite !Hcast.
    split; [right; split; [reflexivity | exact Hv] |].
    split; [| reflexivity].
    split; [intros _; exact Hv |].
    intros _ ->. simpl in Hv. lia.
  - assert (Hcast : dynamicCast handle = None).
    { unfold dynamicCast. rewrite Hv.
      destruct (Z.eqb_spec (- EINVAL) 0); [lia | reflexivity]. }
    rewrite !Hcast, Hnull.
    split; [now left |]. split; [| reflexivity].
    split; [intros H; now contradiction H | intros H; lia].
Qed.

(** X4: [usesPhysicallyContiguousMemory] looks at the lowest flag bit
    only: it answers true exactly when the flags value is odd, negative
    values included, and so exactly for the handles register and
    unregister treat as framebuffers. *)
Theorem usesPhysicallyContiguousMemory_odd (h : private_handle_t) :
  usesPhysicallyContiguousMemory h = Z.odd (flags h) /\
  (usesPhysicallyContiguousMemory h = true <-> framebuffer_backed h).
Proof.
  unfold usesPhysicallyContiguousMemory, framebuffer_backed.
  assert (Hbit : Z.land (flags h) PRIV_FLAGS_FRAMEBUFFER =
                 if Z.odd (flags h) then 1 else 0).
  { change PRIV_FLAGS_FRAMEBUFFER with (Z.ones 1).
    rewrite Z.land_ones by lia. change (2 ^ 1) with 2.
    apply Zmod_odd. }
  rewrite Hbit. destruct (Z.odd (flags h)); split; try reflexivity;
    split; (discriminate || (intros H; now contradiction H) || trivial).
Qed.

(** ** Opening a device *)

Lemma uchar_inj (c1 c2 : Ascii.ascii) : uchar c1 = uchar c2 -> c1 = c2.
Proof.
  unfold uchar. intros H. apply N2Z.inj in H.
  rewrite <- (Ascii.ascii_N_embedding c1), <- (Ascii.ascii_N_embedding c2).
  now rewrite H.
Qed.

(** When the second string is shorter than the bound, [strncmp] reaches
    its terminator, and the bounded comparison is equality of the
    strings. *)
Lemma strncmp_zero_iff (n : nat) :
  forall s1 s2 : string,
    nul_free s1 = true -> nul_free s2 = true ->
    (String.length s2 < n)%nat ->
    (strncmp s1 s2 n = 0 <-> s1 = s2).
Proof.
  induction n as [| n IH]; intros s1 s2 H1 H2 Hlen; [inversion Hlen |].
  destruct s1 as [| c1 r1]; destruct s2 as [| c2 r2]; cbn [strncmp
    char_at_head string_tail].
  - change (uchar Ascii.zero) with 0. simpl. tauto.
  - change (uchar Ascii.zero) with 0.
    cbn [nul_free] in H2. apply andb_true_iff in H2. destruct H2 as [Hc _].
    apply negb_true_iff, Z.eqb_neq in Hc.
    destruct (Z.eqb_spec 0 (uchar c2)) as [H0 | H0]; [congruence |].
    cbn [negb]. split; [lia | discriminate].
  - change (uchar Ascii.zero) with 0.
    cbn [nul_free] in H1. apply andb_true_iff in H1. destruct H1 as [Hc _].
    apply negb_true_iff, Z.eqb_neq in Hc.
    destruct (Z.eqb_spec (uchar c1) 0) as [H0 | H0]; [congruence |].
    cbn [negb]. split; [lia | discriminate].
  - cbn [nul_free] in H1, H2.
    apply andb_true_iff in H1. destruct H1 as [Hc1 Hr1].
    apply andb_true_iff in H2. destruct H2 as [_ Hr2].
    apply negb_true_iff in Hc1.
    cbn [String.length] in Hlen.
    destruct (Z.eqb_spec (uchar c1) (uchar c2)) as [Heq | Hne]; cbn [negb].
    + rewrite Hc1. apply uchar_inj in Heq. subst c2.
      rewrite (IH r1 r2 Hr1 Hr2) by lia.
      split; [intros -> | intros [= ->]]; reflexivity.
    + split; [lia |]. intros [= -> _]. now contradiction Hne.
Qed.

(** X5: [gralloc_device_open] dispatches on the exact device name: the
    bound of 8 characters exceeds both names, so a name opens the
    allocator device only if it is "gpu0" and the framebuffer device only
    if it is "fb0"; any other name, longer ones that begin with a device
    name included, gets [-EINVAL] without any opener being called.  The
    status of the opener is returned as it is. *)
Theorem gralloc_device_open_exact_name (d : device_env) (name : string) :
  nul_free name = true ->
  (name = GRALLOC_HARDWARE_GPU0 ->
   gralloc_device_open d name =
     (alloc_device_open d name, [call_alloc_device_open name])) /\
  (name = GRALLOC_HARDWARE_FB0 ->
   gralloc_device_open d name =
     (framebuffer_device_open d name, [call_framebuffer_device_open name])) /\
  (name <> GRALLOC_HARDWARE_GPU0 -> name <> GRALLOC_HARDWARE_FB0 ->
   gralloc_device_open d name = (- EINVAL, []) /\
   fst (gralloc_device_open d name) < 0).
Proof.
  intros Hname. pose proof minus_EINVAL_neg as Hneg.
  assert (Hgpu : strncmp name GRALLOC_HARDWARE_GPU0
                   MALI_GRALLOC_HARDWARE_MAX_STR_LEN = 0 <->
                 name = GRALLOC_HARDWARE_GPU0).
  { apply strncmp_zero_iff; [exact Hname | reflexivity |].
    cbv [GRALLOC_HARDWARE_GPU0 MALI_GRALLOC_HARDWARE_MAX_STR_LEN
         String.length]. lia. }
  assert (Hfb : strncmp name GRALLOC_HARDWARE_FB0
                  MALI_GRALLOC_HARDWARE_MAX_STR_LEN = 0 <->
                name = GRALLOC_HARDWARE_FB0).
  { apply strncmp_zero_iff; [exact Hname | reflexivity |].
    cbv [GRALLOC_HARDWARE_FB0 MALI_GRALLOC_HARDWARE_MAX_STR_LEN
         String.length]. lia. }
  unfold gralloc_device_open.
  destruct (Z.eqb_spec (strncmp name GRALLOC_HARDWARE_GPU0
                          MALI_GRALLOC_HARDWARE_MAX_STR_LEN) 0) as [Hg | Hg];
    destruct (Z.eqb_spec (strncmp name GRALLOC_HARDWARE_FB0
                            MALI_GRALLOC_HARDWARE_MAX_STR_LEN) 0) as [Hf | Hf].
  - apply Hgpu in Hg. apply Hfb in Hf. rewrite Hg in Hf. discriminate Hf.
  - apply Hgpu in Hg. split; [reflexivity |]. split.
    + intros Hf'. rewrite Hg in Hf'. discriminate Hf'.
    + intros Hn. contradiction.
  - apply Hfb in Hf. split; [| split].
    + intros Hg'. apply Hgpu in Hg'. contradiction.
    + reflexivity.
    + intros _ Hn. contradiction.
  - split; [| split].
    + intros Hg'. apply Hgpu in Hg'. contradiction.
    + intros Hf'. apply Hfb in Hf'. contradiction.
    + intros _ _. split; [reflexivity | exact Hneg].
Qed.

(** ** Unregistration in full *)

(** X6: on a valid handle unregister returns 0 on every path.  It calls
    [munmap] exactly when the handle is not a framebuffer, is owned by the
    caller and carries the ION flag, and then exactly once, on the stored
    [base] with the stored [size] converted to [size_t]. *)
Theorem unregister_munmap_exactly (e : env) (h : private_handle_t) :
  validate (Some h) = 0 ->
  value (gralloc_unregister_buffer e (Some h)) = 0 /\
  (issues_munmap (calls (gralloc_unregister_buffer e (Some h))) = true <->
   ~ framebuffer_backed h /\ pid h = getpid e /\ ion_backed h) /\
  filter is_munmap (calls (gralloc_unregister_buffer e (Some h))) =
    if issues_munmap (calls (gralloc_unregister_buffer e (Some h)))
    then [call_munmap (base h) (size h mod 2 ^ size_t_bits)]
    else [].
Proof.
  intros Hv. rewrite (unregister_run e h Hv). cbv [value calls].
  fold (to_size_t (size h)).
  assert (Hm : forall t,
             t = (if truthy (Z.land (lockState h) LOCK_STATE_READ_MASK)
                  then [AERR "[unregister] handle %p still locked (state=%08x)"]
                  else []) ->
             forall rest,
               issues_munmap (t ++ rest) = issues_munmap rest /\
               filter is_munmap (t ++ rest) = filter is_munmap rest).
  { intros t -> rest.
    destruct (truthy (Z.land (lockState h) LOCK_STATE_READ_MASK));
      split; reflexivity. }
  destruct (Hm _ eq_refl
              (if truthy (Z.land (flags h) PRIV_FLAGS_FRAMEBUFFER)
               then [AERR "Can't unregister buffer %p as it is a framebuffer"]
               else if pid h =? getpid e
               then pthread_mutex_lock ::
                    (if truthy (Z.land (flags h) PRIV_FLAGS_USES_ION)
                     then call_munmap (base h) (to_size_t (size h)) ::
                          (if munmap e (base h) (to_size_t (size h)) <? 0
                           then [AERR "Could not munmap base:%p size:%d '%s'"]
                           else [])
                     else [AERR "Unregistering unknown buffer is not supported. Flags = %d"])
                    ++ [pthread_mutex_unlock]
               else [AERR "Trying to unregister buffer %p from process %d that was not created in current process: %d"]))
    as [-> ->].
  clear Hm. unfold framebuffer_backed, ion_backed.
  pose proof (truthy_true (Z.land (flags h) PRIV_FLAGS_FRAMEBUFFER)) as Tfb.
  pose proof (truthy_true (Z.land (flags h) PRIV_FLAGS_USES_ION)) as Tion.
  pose proof (Z.eqb_eq (pid h) (getpid e)) as Town.
  destruct (truthy (Z.land (flags h) PRIV_FLAGS_FRAMEBUFFER));
    destruct (pid h =? getpid e);
    destruct (truthy (Z.land (flags h) PRIV_FLAGS_USES_ION));
    destruct (munmap e (base h) (to_size_t (size h)) <? 0);
    cbv [issues_munmap app existsb filter is_munmap orb];
    (split; [reflexivity |]); (split; [| reflexivity]);
    intuition congruence.
Qed.

(** X7: a register that fails for unsupported flags still makes the
    caller the owner.  On a valid handle with neither the framebuffer nor
    the ION flag, whoever created it, register returns [-EINVAL]; the
    unregister that follows from the same process then zeroes [base],
    [lockState] and [writeOwner] without unmapping anything. *)
Theorem failed_register_then_unregister (e : env) (h : private_handle_t) :
  validate (Some h) = 0 -> ~ framebuffer_backed h -> ~ ion_backed h ->
  value (gralloc_register_buffer e (Some h)) = - EINVAL /\
  value (gralloc_unregister_buffer e
           (after (gralloc_register_buffer e (Some h)))) = 0 /\
  after (gralloc_unregister_buffer e
           (after (gralloc_register_buffer e (Some h)))) =
    Some (set_writeOwner 0 (set_lockState 0 (set_base 0
            (set_pid (getpid e) h)))) /\
  issues_munmap (calls (gralloc_unregister_buffer e
                          (after (gralloc_register_buffer e (Some h)))))
    = false.
Proof.
  intros Hv Hfb Hion.
  assert (Hfb' : truthy (Z.land (flags h) PRIV_FLAGS_FRAMEBUFFER) = false).
  { apply truthy_false. unfold framebuffer_backed in Hfb. lia. }
  assert (Hion' : truthy (Z.land (flags h) PRIV_FLAGS_USES_ION) = false).
  { apply truthy_false. unfold ion_backed in Hion. lia. }
  assert (Hreg : gralloc_register_buffer e (Some h) =
                 mk_outcome (- EINVAL) (Some (set_pid (getpid e) h))
                   [pthread_mutex_lock;
                    AERR "unknown buffer flags not supported. flags = %d";
                    pthread_mutex_unlock]).
  { rewrite (register_valid e h Hv). run_cases. reflexivity. }
  rewrite Hreg. cbv [value after].
  rewrite (unregister_run e (set_pid (getpid e) h) Hv).
  change (flags (set_pid (getpid e) h)) with (flags h).
  change (pid (set_pid (getpid e) h)) with (getpid e).
  change (lockState (set_pid (getpid e) h)) with (lockState h).
  rewrite Hfb', Hion', Z.eqb_refl. cbv [value after calls].
  split; [reflexivity |]. split; [reflexivity |]. split; [reflexivity |].
  unfold issues_munmap.
  destruct (truthy (Z.land (lockState h) LOCK_STATE_READ_MASK)); reflexivity.
Qed.

(** ** Sequences of calls *)

Lemma set_writeOwner_same (h : private_handle_t) :
  set_writeOwner (writeOwner h) h = h.
Proof. destruct h; reflexivity. Qed.

Lemma same_but_mapping_refl (h : private_handle_t) : same_but_mapping h h.
Proof. destruct h; reflexivity. Qed.

Lemma same_but_mapping_trans (h1 h2 h3 : private_handle_t) :
  same_but_mapping h1 h2 -> same_but_mapping h2 h3 -> same_but_mapping h1 h3.
Proof.
  unfold same_but_mapping. intros H12 H23. rewrite H23 at 1. rewrite H12.
  reflexivity.
Qed.

(** One call on a handle that fails [validate]. *)
Lemma apply_operation_invalid (o : operation) (handle : buffer_handle_t) :
  validate handle <> 0 -> apply_operation o handle = (- EINVAL, handle).
Proof.
  intros Hbad. destruct o as [e | e | e usage | e]; cbn [apply_operation];
    [ destruct (entry_points_invalid e handle 0 Hbad) as (-> & _)
    | destruct (entry_points_invalid e handle 0 Hbad) as (_ & -> & _)
    | destruct (entry_points_invalid e handle usage Hbad) as (_ & _ & -> & _)
    | destruct (entry_points_invalid e handle 0 Hbad) as (_ & _ & _ & ->) ];
    reflexivity.
Qed.

(** One call other than register on a valid handle. *)
Lemma apply_operation_frame (o : operation) (h : private_handle_t) :
  validate (Some h) = 0 -> is_register o = false ->
  exists h', apply_operation o (Some h) = (0, Some h') /\
             same_but_mapping h h' /\ validate (Some h') = 0.
Proof.
  intros Hv Hreg. destruct o as [e | e | e usage | e]; [discriminate | | |];
    cbn [apply_operation].
  - rewrite (unregister_run e h Hv). cbv [value after].
    destruct (truthy (Z.land (flags h) PRIV_FLAGS_FRAMEBUFFER));
      [| destruct (pid h =? getpid e)];
      eexists; (split; [reflexivity |]); split; try exact Hv;
      try apply same_but_mapping_refl.
    destruct h; reflexivity.
  - rewrite (lock_run e h usage Hv). cbv [value after fst].
    destruct (truthy (Z.land (flags h) PRIV_FLAGS_USES_ION));
      eexists; (split; [reflexivity |]); split; try exact Hv;
      try apply same_but_mapping_refl.
    destruct h; reflexivity.
  - rewrite (unlock_run e h Hv). cbv [value after].
    eexists. split; [reflexivity |]. split;
      [apply same_but_mapping_refl | exact Hv].
Qed.

(** One lock or unlock on a valid handle. *)
Lemma apply_operation_access (o : operation) (h : private_handle_t) :
  validate (Some h) = 0 -> is_access o = true ->
  exists w, apply_operation o (Some h) = (0, Some (set_writeOwner w h)) /\
            (~ ion_backed h -> w = writeOwner h).
Proof.
  intros Hv Hacc. destruct o as [e | e | e usage | e]; try discriminate;
    cbn [apply_operation].
  - rewrite (lock_run e h usage Hv). cbv [value after fst].
    destruct (truthy (Z.land (flags h) PRIV_FLAGS_USES_ION)) eqn:Hion.
    + eexists. split; [reflexivity |]. intros Hn.
      apply truthy_true in Hion. contradiction.
    + exists (writeOwner h). rewrite set_writeOwner_same. now split.
  - rewrite (unlock_run e h Hv). cbv [value after].
    exists (writeOwner h). rewrite set_writeOwner_same. now split.
Qed.

(** X8: a handle that fails [validate] is inert.  Whatever sequence of
    register, unregister, lock and unlock calls is made on it, from
    whatever processes, every call returns [-EINVAL] and the handle is
    left exactly as it was. *)
Theorem invalid_handle_inert (ops : list operation)
    (handle : buffer_handle_t) :
  validate handle <> 0 ->
  apply_operations ops handle = (map (fun _ => - EINVAL) ops, handle).
Proof.
  intros Hbad. induction ops as [| o ops IH]; [reflexivity |].
  cbn [apply_operations map]. rewrite (apply_operation_invalid o handle Hbad).
  rewrite IH. reflexivity.
Qed.

(** X9: unregister, lock and unlock touch the mapping state only.  Along
    any sequence of these calls on a valid handle every call returns 0,
    the handle stays valid, and it differs from the original at most in
    [base], [lockState] and [writeOwner]: flags, size, descriptors and the
    recorded pid are never written. *)
Theorem mapping_state_only (ops : list operation) :
  forall h : private_handle_t,
    validate (Some h) = 0 -> existsb is_register ops = false ->
    exists h',
      apply_operations ops (Some h) = (map (fun _ => 0) ops, Some h') /\
      same_but_mapping h h' /\ validate (Some h') = 0 /\
      flags h' = flags h /\ size h' = size h /\ share_fd h' = share_fd h /\
      pid h' = pid h.
Proof.
  induction ops as [| o ops IH]; intros h Hv Hnone.
  - exists h. split; [reflexivity |].
    split; [apply same_but_mapping_refl |]. repeat split; assumption.
  - cbn [existsb] in Hnone. apply orb_false_iff in Hnone.
    destruct Hnone as [Ho Hrest].
    destruct (apply_operation_frame o h Hv Ho) as (h1 & Hstep & Hsame & Hv1).
    destruct (IH h1 Hv1 Hrest) as (h2 & Hrun & Hsame2 & Hv2 & _).
    exists h2. cbn [apply_operations map]. rewrite Hstep, Hrun.
    split; [reflexivity |].
    pose proof (same_but_mapping_trans h h1 h2 Hsame Hsame2) as Hall.
    split; [exact Hall |]. split; [exact Hv2 |].
    unfold same_but_mapping in Hall. rewrite Hall.
    repeat split.
Qed.

(** X10: lock and unlock never count readers.  Along any sequence of
    lock and unlock calls on a valid handle every call returns 0 and only
    [writeOwner] can change (nothing at all without the ION flag), so
    [lockState] stays what it was; the "still locked" diagnostic of a
    following unregister therefore depends on the [lockState] the handle
    started with, not on the locks taken. *)
Theorem locks_leave_lockState (ops : list operation) :
  forall (h : private_handle_t) (e : env),
    validate (Some h) = 0 -> forallb is_access ops = true ->
    exists w,
      apply_operations ops (Some h) =
        (map (fun _ => 0) ops, Some (set_writeOwner w h)) /\
      (~ ion_backed h -> set_writeOwner w h = h) /\
      (In (AERR "[unregister] handle %p still locked (state=%08x)")
          (calls (gralloc_unregister_buffer e (Some (set_writeOwner w h))))
       <-> Z.land (lockState h) LOCK_STATE_READ_MASK <> 0).
Proof.
  induction ops as [| o ops IH]; intros h e Hv Hacc.
  - exists (writeOwner h). rewrite set_writeOwner_same.
    split; [reflexivity |]. split; [reflexivity |].
    rewrite (unregister_run e h Hv). cbv [calls].
    rewrite <- truthy_true.
    destruct (truthy (Z.land (lockState h) LOCK_STATE_READ_MASK));
      destruct (truthy (Z.land (flags h) PRIV_FLAGS_FRAMEBUFFER));
      destruct (pid h =? getpid e);
      destruct (truthy (Z.land (flags h) PRIV_FLAGS_USES_ION));
      destruct (munmap e (base h) (to_size_t (size h)) <? 0);
      cbn [app In]; split; intros H; try reflexivity; try discriminate H;
      try (left; reflexivity);
      repeat (destruct H as [H | H]; try discriminate H); contradiction.
  - cbn [forallb] in Hacc. apply andb_true_iff in Hacc.
    destruct Hacc as [Ho Hrest].
    destruct (apply_operation_access o h Hv Ho) as (w1 & Hstep & Hnon).
    destruct (IH (set_writeOwner w1 h) e Hv Hrest) as (w & Hrun & Hnon' & Hdiag).
    exists w. cbn [apply_operations map]. rewrite Hstep, Hrun.
    split; [reflexivity |]. split.
    + intros Hion. etransitivity; [exact (Hnon' Hion) |].
      rewrite (Hnon Hion). apply set_writeOwner_same.
    + exact Hdiag.
Qed.

(** ** Locking in full *)

(** X11: the last lock wins.  Locking a valid handle twice leaves exactly
    what the second lock alone would leave: the same status and access
    pointer, the same struct, and no call to the outside. *)
Theorem last_lock_wins (e1 e2 : env) (h : private_handle_t) (u1 u2 : Z) :
  validate (Some h) = 0 ->
  gralloc_lock e2 (after (gralloc_lock e1 (Some h) u1)) u2 =
    gralloc_lock e2 (Some h) u2 /\
  calls (gralloc_lock e2 (Some h) u2) = [].
Proof.
  intros Hv. rewrite (lock_run e1 h u1 Hv). cbv [after].
  rewrite (lock_run e2 h u2 Hv).
  destruct (truthy (Z.land (flags h) PRIV_FLAGS_USES_ION)) eqn:Hion.
  - rewrite (lock_run e2 (set_writeOwner _ h) u2 Hv).
    change (flags (set_writeOwner (Z.land u1 GRALLOC_USAGE_SW_WRITE_MASK) h))
      with (flags h).
    rewrite Hion. split; reflexivity.
  - rewrite (lock_run e2 h u2 Hv), Hion. split; reflexivity.
Qed.

(** X12: lock asks nothing about the caller.  On a valid handle its
    result is the same from every process and whatever pid the handle
    records: the stored [base] is handed out without an ownership
    check. *)
Theorem lock_ignores_ownership (e1 e2 : env) (h : private_handle_t)
    (usage p : Z) :
  validate (Some h) = 0 ->
  gralloc_lock e1 (Some h) usage = gralloc_lock e2 (Some h) usage /\
  value (gralloc_lock e1 (Some (set_pid p h)) usage) =
    value (gralloc_lock e1 (Some h) usage) /\
  option_map pid (after (gralloc_lock e1 (Some h) usage)) = Some (pid h).
Proof.
  intros Hv.
  rewrite (lock_run e1 h usage Hv), (lock_run e2 h usage Hv).
  rewrite (lock_run e1 (set_pid p h) usage Hv).
  cbv [value after option_map].
  destruct (truthy (Z.land (flags h) PRIV_FLAGS_USES_ION));
    repeat split.
Qed.

(** X13: without the ION flag nothing is tracked and nothing is flushed.
    On such a valid handle lock leaves the struct as it was, and unlock
    returns 0 without a single call, whatever [writeOwner] holds. *)
Theorem no_sync_without_ion (e : env) (h : private_handle_t) (usage : Z) :
  validate (Some h) = 0 -> ~ ion_backed h ->
  after (gralloc_lock e (Some h) usage) = Some h /\
  gralloc_unlock e (Some h) = mk_outcome 0 (Some h) [].
Proof.
  intros Hv Hion.
  assert (Hion' : truthy (Z.land (flags h) PRIV_FLAGS_USES_ION) = false).
  { apply truthy_false. unfold ion_backed in Hion. lia. }
  rewrite (lock_run e h usage Hv), (unlock_run e h Hv), Hion'.
  split; reflexivity.
Qed.

(** X14: after a lock that asked for CPU writes on a valid ION handle,
    unlock looks the module up once and then synchronises exactly once,
    with the module's ION client and the handle's [share_fd]; when the
    lookup fails it logs instead. *)
Theorem write_lock_then_unlock (e1 e2 : env) (h : private_handle_t)
    (usage : Z) :
  validate (Some h) = 0 -> ion_backed h -> cpu_write usage ->
  gralloc_unlock e2 (after (gralloc_lock e1 (Some h) usage)) =
    mk_outcome 0
      (Some (set_writeOwner (Z.land usage GRALLOC_USAGE_SW_WRITE_MASK) h))
      [call_hw_get_module;
       if hw_get_module e2 =? 0
       then call_ion_sync_fd (ion_client e2) (share_fd h)
       else AERR "Couldnot get gralloc module for handle %p\n"].
Proof.
  intros Hv Hion Hw. apply truthy_true in Hion. apply truthy_true in Hw.
  rewrite (lock_run e1 h usage Hv), Hion. cbv [after].
  rewrite (unlock_run e2 (set_writeOwner _ h) Hv).
  change (flags (set_writeOwner (Z.land usage GRALLOC_USAGE_SW_WRITE_MASK) h))
    with (flags h).
  change (writeOwner
            (set_writeOwner (Z.land usage GRALLOC_USAGE_SW_WRITE_MASK) h))
    with (Z.land usage GRALLOC_USAGE_SW_WRITE_MASK).
  rewrite Hion, Hw. reflexivity.
Qed.

(** X15: unregister drops the pending flush.  When the owning process
    unregisters a valid handle between a lock and its unlock, the unlock
    makes no call at all, whatever the lock had asked for. *)
Theorem unlock_after_unregister_silent (e1 e2 e3 : env)
    (h : private_handle_t) (usage : Z) :
  validate (Some h) = 0 -> ~ framebuffer_backed h -> pid h = getpid e2 ->
  gralloc_unlock e3
    (after (gralloc_unregister_buffer e2
              (after (gralloc_lock e1 (Some h) usage)))) =
  mk_outcome 0 (Some (set_writeOwner 0 (set_lockState 0 (set_base 0 h)))) [].
Proof.
  intros Hv Hfb Hpid.
  assert (Hfb' : truthy (Z.land (flags h) PRIV_FLAGS_FRAMEBUFFER) = false).
  { apply truthy_false. unfold framebuffer_backed in Hfb. lia. }
  apply Z.eqb_eq in Hpid.
  assert (Hstep : forall h1, validate (Some h1) = 0 -> flags h1 = flags h ->
                    pid h1 = pid h ->
                    set_writeOwner 0 (set_lockState 0 (set_base 0 h1)) =
                    set_writeOwner 0 (set_lockState 0 (set_base 0 h)) ->
                    gralloc_unlock e3
                      (after (gralloc_unregister_buffer e2 (Some h1))) =
                    mk_outcome 0
                      (Some (set_writeOwner 0 (set_lockState 0 (set_base 0 h))))
                      []).
  { intros h1 Hv1 Hf Hp Hz. rewrite (unregister_run e2 h1 Hv1).
    rewrite Hf, Hp, Hfb', Hpid, Hz. cbv [after].
    rewrite (unlock_run e3 (set_writeOwner 0 (set_lockState 0 (set_base 0 h)))
               Hv).
    change (writeOwner (set_writeOwner 0 (set_lockState 0 (set_base 0 h))))
      with 0.
    change (truthy 0) with false.
    rewrite andb_false_r. reflexivity. }
  rewrite (lock_run e1 h usage Hv). cbv [after].
  destruct (truthy (Z.land (flags h) PRIV_FLAGS_USES_ION));
    apply Hstep; try reflexivity; exact Hv.
Qed.

(** X16: the mutex is used with discipline.  Whatever the handle,
    unregister either leaves [s_map_lock] alone or takes it exactly once
    and releases it before it returns, and it calls [munmap] only while
    holding it; lock and unlock never touch the mutex. *)
Theorem mutex_discipline_kept (e : env) (handle : buffer_handle_t)
    (usage : Z) :
  mutex_discipline false (calls (gralloc_unregister_buffer e handle)) =
    Some false /\
  (filter is_mutex_call (calls (gralloc_unregister_buffer e handle)) = [] \/
   filter is_mutex_call (calls (gralloc_unregister_buffer e handle)) =
     [pthread_mutex_lock; pthread_mutex_unlock]) /\
  existsb is_mutex_call (calls (gralloc_lock e handle usage)) = false /\
  existsb is_mutex_call (calls (gralloc_unlock e handle)) = false.
Proof.
  destruct (validate_cases handle) as [Hv | Hv].
  - destruct (proj1 (validate_zero_iff handle) Hv) as (h & -> & _).
    rewrite (unregister_run e h Hv), (lock_run e h usage Hv),
      (unlock_run e h Hv). cbv [calls].
    destruct (truthy (Z.land (lockState h) LOCK_STATE_READ_MASK));
      destruct (truthy (Z.land (flags h) PRIV_FLAGS_FRAMEBUFFER));
      destruct (pid h =? getpid e);
      destruct (truthy (Z.land (flags h) PRIV_FLAGS_USES_ION));
      destruct (munmap e (base h) (to_size_t (size h)) <? 0);
      destruct (truthy (writeOwner h));
      destruct (hw_get_module e =? 0);
      (split; [reflexivity |]);
      (split; [first [left; reflexivity | right; reflexivity] |]);
      split; reflexivity.
  - assert (Hbad : validate handle <> 0)
      by (pose proof minus_EINVAL_neg; lia).
    destruct (entry_points_invalid e handle usage Hbad)
      as (_ & -> & -> & ->).
    split; [reflexivity |]. split; [left; reflexivity |].
    split; reflexivity.
Qed.

(** X17: the constructing process owns the handle without registering.
    A handle built with the ION flag and without the framebuffer flag has
    no pending flush; unregister from the constructing process unmaps the
    [base] given to the constructor, once, and leaves [base] zero, while
    unregister from any other process leaves the handle alone. *)
Theorem constructed_handle_owned_by_creator (e e' : env)
    (storage : private_handle_t)
    (flags_arg usage_arg size_arg base_arg lock_state fb_file fb_offset : Z) :
  Z.land flags_arg PRIV_FLAGS_FRAMEBUFFER = 0 ->
  Z.land flags_arg PRIV_FLAGS_USES_ION <> 0 ->
  getpid e' <> getpid e ->
  calls (gralloc_unlock e'
           (Some (private_handle_ctor e storage flags_arg usage_arg size_arg
                    base_arg lock_state fb_file fb_offset))) = [] /\
  filter is_munmap
    (calls (gralloc_unregister_buffer e
              (Some (private_handle_ctor e storage flags_arg usage_arg
                       size_arg base_arg lock_state fb_file fb_offset)))) =
    [call_munmap base_arg (size_arg mod 2 ^ size_t_bits)] /\
  option_map base
    (after (gralloc_unregister_buffer e
              (Some (private_handle_ctor e storage flags_arg usage_arg
                       size_arg base_arg lock_state fb_file fb_offset)))) =
    Some 0 /\
  after (gralloc_unregister_buffer e'
           (Some (private_handle_ctor e storage flags_arg usage_arg size_arg
                    base_arg lock_state fb_file fb_offset))) =
    Some (private_handle_ctor e storage flags_arg usage_arg size_arg
            base_arg lock_state fb_file fb_offset) /\
  issues_munmap
    (calls (gralloc_unregister_buffer e'
              (Some (private_handle_ctor e storage flags_arg usage_arg
                       size_arg base_arg lock_state fb_file fb_offset)))) =
    false.
Proof.
  intros Hfb Hion Hother.
  set (h0 := private_handle_ctor e storage flags_arg usage_arg size_arg
               base_arg lock_state fb_file fb_offset).
  assert (Hv : validate (Some h0) = 0).
  { apply validate_zero_iff. exists h0. split; [reflexivity |].
    repeat split. }
  apply truthy_false in Hfb. apply truthy_true in Hion.
  assert (Hown : (getpid e =? getpid e') = false) by (apply Z.eqb_neq; lia).
  rewrite (unlock_run e' h0 Hv), (unregister_run e h0 Hv),
    (unregister_run e' h0 Hv).
  cbv [calls after].
  change (flags h0) with flags_arg. change (writeOwner h0) with 0.
  change (pid h0) with (getpid e). change (lockState h0) with lock_state.
  change (base h0) with base_arg. change (size h0) with size_arg.
  rewrite Hfb, Hion, Z.eqb_refl, Hown. fold (to_size_t size_arg).
  destruct (truthy (Z.land lock_state LOCK_STATE_READ_MASK));
    destruct (munmap e base_arg (to_size_t size_arg) <? 0);
    repeat split.
Qed.

(** X18: [validate] does not bound [size], and unregister converts it to
    [size_t] unchecked: on a valid ION handle without the framebuffer
    flag and with a negative [size], the owner's unregister asks [munmap]
    for a length of [2 ^ size_t_bits + size] bytes. *)
Theorem negative_size_wraps (e : env) (h : private_handle_t) :
  validate (Some h) = 0 -> ~ framebuffer_backed h -> ion_backed h ->
  pid h = getpid e -> - 2 ^ size_t_bits <= size h < 0 ->
  filter is_munmap (calls (gralloc_unregister_buffer e (Some h))) =
    [call_munmap (base h) (2 ^ size_t_bits + size h)].
Proof.
  intros Hv Hfb Hion Hpid Hsize.
  assert (Hfb' : truthy (Z.land (flags h) PRIV_FLAGS_FRAMEBUFFER) = false).
  { apply truthy_false. unfold framebuffer_backed in Hfb. lia. }
  apply truthy_true in Hion. apply Z.eqb_eq in Hpid.
  assert (Hwrap : to_size_t (size h) = 2 ^ size_t_bits + size h).
  { unfold to_size_t.
    rewrite <- (Z.mod_add (size h) 1 (2 ^ size_t_bits)) by lia.
    rewrite Z.mod_small by lia. lia. }
  rewrite (unregister_run e h Hv), Hfb', Hion, Hpid, Hwrap. cbv [calls].
  destruct (truthy (Z.land (lockState h) LOCK_STATE_READ_MASK));
    destruct (munmap e (base h) (2 ^ size_t_bits + size h) <? 0);
    reflexivity.
Qed.

End Gralloc.

(** * The properties on the 64-bit Android platform

    The sample handles and processes run through the entry points with
    the constants of [android_arm64]. *)

#[local] Existing Instance android_arm64.

(** The handle with envelope version 0 has the right magic, integer count
    and descriptor count, and [validate] refuses it: the three members do
    not decide [validate] alone. *)
Lemma validate_shape_alone_insufficient :
  ~ (validate (Some stale_version_handle) = 0 <->
     magic stale_version_handle = sMagic /\
     numInts stale_version_handle = sNumInts /\
     numFds stale_version_handle = sNumFds).
Proof.
  intros [_ H].
  assert (H0 : validate (Some stale_version_handle) = 0)
    by (apply H; repeat split).
  discriminate H0.
Qed.

Lemma validate_rejects_null_and_version_witness :
  validate (Some stale_version_handle) = -22 /\
  validate (Some stale_version_handle) < 0 /\
  dynamicCast (Some stale_version_handle) = None.
Proof.
  change (-22) with (- EINVAL).
  apply (validate_rejects_null_and_version (Some stale_version_handle)).
  intros h Heq. injection Heq as <-.
  split; [repeat split | discriminate].
Defined.

Lemma invalid_handle_fails_fast_witness :
  validate (Some destroyed_handle) <> 0 /\
  gralloc_lock process_100 (Some destroyed_handle) 0x30 =
    mk_outcome (-22, None) (Some destroyed_handle)
      [AERR "Locking invalid buffer %p, returning error"] /\
  gralloc_unlock process_100 (Some destroyed_handle) =
    mk_outcome (-22) (Some destroyed_handle)
      [AERR "Unlocking invalid buffer %p, returning error"].
Proof.
  assert (Hbad : validate (Some destroyed_handle) <> 0) by discriminate.
  split; [exact Hbad |].
  destruct (invalid_handle_fails_fast process_100 (Some destroyed_handle)
              0x30 Hbad) as (_ & _ & _ & Hlock & Hunlock).
  split; [exact Hlock | exact Hunlock].
Defined.

Lemma framebuffer_rejected_witness :
  validate (Some fb_handle) = 0 /\ framebuffer_backed fb_handle /\
  value (gralloc_register_buffer process_100 (Some fb_handle)) = -22 /\
  after (gralloc_unregister_buffer process_100 (Some fb_handle)) =
    Some fb_handle.
Proof.
  assert (Hv : validate (Some fb_handle) = 0) by reflexivity.
  assert (Hfb : framebuffer_backed fb_handle) by discriminate.
  split; [exact Hv |]. split; [exact Hfb |].
  destruct (framebuffer_rejected process_100 fb_handle Hv Hfb)
    as (Hreg & _ & _ & Hunreg & _).
  split; [exact Hreg | exact Hunreg].
Defined.



Lemma unregister_foreign_process_noop_witness :
  pid ion_handle <> getpid process_200 /\
  value (gralloc_unregister_buffer process_200 (Some ion_handle)) = 0 /\
  after (gralloc_unregister_buffer process_200 (Some ion_handle)) =
    Some ion_handle.
Proof.
  assert (Hfb : ~ framebuffer_backed ion_handle)
    by (intros H; apply H; reflexivity).
  assert (Hv : validate (Some ion_handle) = 0) by reflexivity.
  assert (Hpid : pid ion_handle <> getpid process_200) by discriminate.
  split; [exact Hpid |].
  destruct (unregister_foreign_process_noop process_200 ion_handle Hv
              Hfb Hpid) as (Hret & Hafter & _).
  split; [exact Hret | exact Hafter].
Defined.

(** Process 100 unregisters its heap-backed handle twice: the second
    call takes the mutex and unmaps again, at address 0. *)
Lemma second_unregister_unmaps_again :
  validate (Some ion_handle) = 0 /\ ~ framebuffer_backed ion_handle /\
  pid ion_handle = getpid process_100 /\
  calls (gralloc_unregister_buffer process_100
           (after (gralloc_unregister_buffer process_100 (Some ion_handle))))
    = [pthread_mutex_lock; call_munmap 0 4096; pthread_mutex_unlock] /\
  issues_munmap
    (calls (gralloc_unregister_buffer process_100
              (after (gralloc_unregister_buffer process_100
                        (Some ion_handle))))) = true.
Proof.
  split; [reflexivity |].
  split; [intros H; apply H; reflexivity |].
  repeat split.
Qed.

Lemma unregister_owner_zeroes_witness :
  validate (Some ion_handle) = 0 /\ ~ framebuffer_backed ion_handle /\
  pid ion_handle = getpid process_100_degraded /\
  getpid process_100 = getpid process_100_degraded /\
  exists h1,
    value (gralloc_unregister_buffer process_100_degraded (Some ion_handle))
      = 0 /\
    after (gralloc_unregister_buffer process_100_degraded (Some ion_handle))
      = Some h1 /\
    base h1 = 0 /\ lockState h1 = 0 /\ writeOwner h1 = 0 /\
    value (gralloc_unregister_buffer process_100 (Some h1)) = 0 /\
    after (gralloc_unregister_buffer process_100 (Some h1)) = Some h1 /\
    filter is_munmap (calls (gralloc_unregister_buffer process_100 (Some h1)))
      = [call_munmap 0 4096].
Proof.
  assert (Hv : validate (Some ion_handle) = 0) by reflexivity.
  assert (Hfb : ~ framebuffer_backed ion_handle)
    by (intros H; apply H; reflexivity).
  assert (Hpid : pid ion_handle = getpid process_100_degraded)
    by reflexivity.
  assert (Hsame : getpid process_100 = getpid process_100_degraded)
    by reflexivity.
  assert (Hion : ion_backed ion_handle) by discriminate.
  split; [exact Hv |]. split; [exact Hfb |]. split; [exact Hpid |].
  split; [exact Hsame |].
  destruct (unregister_owner_zeroes process_100_degraded process_100
              ion_handle Hv Hfb Hpid Hsame)
    as (h1 & H1 & H2 & H3 & H4 & H5 & H6 & H7 & _ & H9 & _).
  exists h1. repeat (split; [assumption |]). exact (H9 Hion).
Defined.

(** The write owner is set and the module registry does not resolve the
    gralloc module: unlock logs and synchronises nothing. *)
Lemma unlock_sync_needs_module :
  validate (Some ion_handle_written) = 0 /\ ion_backed ion_handle_written /\
  ~ (issues_sync (calls (gralloc_unlock process_100_degraded
                           (Some ion_handle_written))) = true <->
     writeOwner ion_handle_written <> 0).
Proof.
  split; [reflexivity |]. split; [discriminate |].
  intros [_ H].
  assert (H0 : issues_sync (calls (gralloc_unlock process_100_degraded
                                     (Some ion_handle_written))) = true)
    by (apply H; discriminate).
  discriminate H0.
Qed.

Lemma lock_unlock_write_owner_witness :
  cpu_write 0x20 /\ ~ cpu_write 0x3 /\
  exists h1 h2,
    after (gralloc_lock process_100 (Some ion_handle) 0x20) = Some h1 /\
    writeOwner h1 <> 0 /\
    after (gralloc_lock process_100 (Some h1) 0x3) = Some h2 /\
    writeOwner h2 = 0.
Proof.
  assert (Hv : validate (Some ion_handle) = 0) by reflexivity.
  assert (Hion : ion_backed ion_handle) by discriminate.
  assert (Hrw : cpu_write 0x20) by discriminate.
  assert (Hro : ~ cpu_write 0x3) by (intros H; apply H; reflexivity).
  split; [exact Hrw |]. split; [exact Hro |].
  destruct (lock_unlock_write_owner process_100 ion_handle 0x20 0x3 Hv
              Hion Hrw Hro) as (h1 & h2 & H1 & H2 & H3 & H4 & _).
  exists h1, h2. repeat split; assumption.
Defined.

Lemma lock_vaddr_iff_cpu_usage_witness :
  fst (value (gralloc_lock process_100 (Some ion_handle) 0x100)) = 0 /\
  (snd (value (gralloc_lock process_100 (Some ion_handle) 0x100)) =
     Some (base ion_handle) <-> cpu_read 0x100 \/ cpu_write 0x100) /\
  (snd (value (gralloc_lock process_100 (Some ion_handle) 0x100)) = None <->
   ~ cpu_read 0x100 /\ ~ cpu_write 0x100).
Proof.
  apply (lock_vaddr_iff_cpu_usage process_100 ion_handle 0x100).
  reflexivity.
Defined.

Lemma lock_unlock_fail_iff_invalid_witness :
  value (gralloc_lock process_200 (Some ion_handle) 0x33) =
    (0, Some (base ion_handle)) /\
  value (gralloc_lock process_200
           (after (gralloc_unregister_buffer process_100 (Some ion_handle)))
           0x33) = (0, Some 0).
Proof.
  destruct (lock_unlock_fail_iff_invalid process_200 (Some ion_handle) 0x33)
    as (_ & _ & H).
  assert (Hv : validate (Some ion_handle) = 0) by reflexivity.
  assert (Hcpu : cpu_read 0x33 \/ cpu_write 0x33) by (left; discriminate).
  destruct (H ion_handle eq_refl Hv Hcpu) as (Hlock & _ & Hunreg).
  split; [exact Hlock |].
  assert (Hfb : ~ framebuffer_backed ion_handle)
    by (intros Hf; apply Hf; reflexivity).
  assert (Hpid : pid ion_handle = getpid process_100) by reflexivity.
  assert (Hafter :
            after (gralloc_unregister_buffer process_100 (Some ion_handle)) =
            Some (set_writeOwner 0 (set_lockState 0 (set_base 0 ion_handle))))
    by reflexivity.
  destruct (Hunreg process_100 _ Hfb Hpid Hafter) as [Hlock1 _].
  exact Hlock1.
Defined.

(** The scenario of a one-page heap-backed buffer registered in process
    100: a write lock hands back the mapped base, unlock synchronises the
    cache once, and unregister leaves the handle unmapped. *)
Example one_page_scenario :
  value (gralloc_lock process_100 (Some ion_handle) 0x30) =
    (0, Some 0x7f0000001000) /\
  calls (gralloc_unlock process_100 (Some ion_handle_written)) =
    [call_hw_get_module; call_ion_sync_fd 3 7] /\
  option_map base
    (after (gralloc_unregister_buffer process_100 (Some ion_handle_written)))
    = Some 0.
Proof. repeat split. Qed.

(** ** The further properties on the sample handles *)

Lemma gralloc_device_open_exact_name_witness :
  nul_free "gpu0-primary" = true /\
  gralloc_device_open
    (mk_device_env (fun _ => 0) (fun _ => 0)) "gpu0-primary" = (-22, []).
Proof.
  assert (Hname : nul_free "gpu0-primary" = true) by reflexivity.
  split; [exact Hname |].
  destruct (gralloc_device_open_exact_name
              (mk_device_env (fun _ => 0) (fun _ => 0)) "gpu0-primary" Hname)
    as (_ & _ & Hother).
  assert (Hgpu : "gpu0-primary"%string <> GRALLOC_HARDWARE_GPU0)
    by discriminate.
  assert (Hfb : "gpu0-primary"%string <> GRALLOC_HARDWARE_FB0)
    by discriminate.
  destruct (Hother Hgpu Hfb) as [Hopen _]. exact Hopen.
Defined.

Lemma unregister_munmap_exactly_witness :
  value (gralloc_unregister_buffer process_100 (Some ion_handle)) = 0 /\
  filter is_munmap
    (calls (gralloc_unregister_buffer process_100 (Some ion_handle))) =
    [call_munmap 0x7f0000001000 4096].
Proof.
  assert (Hv : validate (Some ion_handle) = 0) by reflexivity.
  destruct (unregister_munmap_exactly process_100 ion_handle Hv)
    as (Hret & _ & Hcalls).
  split; [exact Hret | exact Hcalls].
Defined.

Lemma failed_register_then_unregister_witness :
  after (gralloc_unregister_buffer process_200
           (after (gralloc_register_buffer process_200
                     (Some (private_handle_ctor process_100 ion_handle
                              PRIV_FLAGS_USES_ION_DMA_HEAP 0 4096
                              0x7f0000001000 0 (-1) 0))))) =
  Some (set_writeOwner 0 (set_lockState 0 (set_base 0
          (set_pid 200
             (private_handle_ctor process_100 ion_handle
                PRIV_FLAGS_USES_ION_DMA_HEAP 0 4096 0x7f0000001000 0 (-1)
                0))))).
Proof.
  assert (Hv : validate
                 (Some (private_handle_ctor process_100 ion_handle
                          PRIV_FLAGS_USES_ION_DMA_HEAP 0 4096 0x7f0000001000
                          0 (-1) 0)) = 0) by reflexivity.
  assert (Hfb : ~ framebuffer_backed
                    (private_handle_ctor process_100 ion_handle
                       PRIV_FLAGS_USES_ION_DMA_HEAP 0 4096 0x7f0000001000
                       0 (-1) 0)) by (intros H; apply H; reflexivity).
  assert (Hion : ~ ion_backed
                     (private_handle_ctor process_100 ion_handle
                        PRIV_FLAGS_USES_ION_DMA_HEAP 0 4096 0x7f0000001000
                        0 (-1) 0)) by (intros H; apply H; reflexivity).
  destruct (failed_register_then_unregister process_200 _ Hv Hfb Hion)
    as (_ & _ & Hafter & _).
  exact Hafter.
Defined.

Lemma invalid_handle_inert_witness :
  apply_operations
    [op_register process_200; op_lock process_200 0x30;
     op_unlock process_200; op_unregister process_100]
    (Some destroyed_handle) =
  ([-22; -22; -22; -22], Some destroyed_handle).
Proof.
  assert (Hbad : validate (Some destroyed_handle) <> 0) by discriminate.
  exact (invalid_handle_inert
           [op_register process_200; op_lock process_200 0x30;
            op_unlock process_200; op_unregister process_100]
           (Some destroyed_handle) Hbad).
Defined.

Lemma mapping_state_only_witness :
  exists h',
    apply_operations
      [op_lock process_100 0x30; op_unlock process_100;
       op_unregister process_100; op_lock process_200 0x3]
      (Some ion_handle) = ([0; 0; 0; 0], Some h') /\
    flags h' = flags ion_handle /\ pid h' = pid ion_handle.
Proof.
  assert (Hv : validate (Some ion_handle) = 0) by reflexivity.
  destruct (mapping_state_only
              [op_lock process_100 0x30; op_unlock process_100;
               op_unregister process_100; op_lock process_200 0x3]
              ion_handle Hv eq_refl)
    as (h' & Hrun & _ & _ & Hflags & _ & _ & Hpid).
  exists h'. split; [exact Hrun |]. split; [exact Hflags | exact Hpid].
Defined.

Lemma locks_leave_lockState_witness :
  exists w,
    apply_operations
      [op_lock process_100 0x30; op_lock process_200 0x3;
       op_unlock process_100]
      (Some ion_handle) = ([0; 0; 0], Some (set_writeOwner w ion_handle)).
Proof.
  assert (Hv : validate (Some ion_handle) = 0) by reflexivity.
  destruct (locks_leave_lockState
              [op_lock process_100 0x30; op_lock process_200 0x3;
               op_unlock process_100]
              ion_handle process_100 Hv eq_refl) as (w & Hrun & _).
  exists w. exact Hrun.
Defined.

Lemma last_lock_wins_witness :
  gralloc_lock process_200
    (after (gralloc_lock process_100 (Some ion_handle) 0x30)) 0x3 =
  gralloc_lock process_200 (Some ion_handle) 0x3.
Proof.
  assert (Hv : validate (Some ion_handle) = 0) by reflexivity.
  destruct (last_lock_wins process_100 process_200 ion_handle 0x30 0x3 Hv)
    as [Hsame _].
  exact Hsame.
Defined.

Lemma lock_ignores_ownership_witness :
  gralloc_lock process_100 (Some ion_handle) 0x30 =
  gralloc_lock process_200 (Some ion_handle) 0x30.
Proof.
  assert (Hv : validate (Some ion_handle) = 0) by reflexivity.
  destruct (lock_ignores_ownership process_100 process_200 ion_handle 0x30 0
              Hv) as [Hsame _].
  exact Hsame.
Defined.

Lemma no_sync_without_ion_witness :
  gralloc_unlock process_100
    (Some (private_handle_ctor process_100 ion_handle_written
             PRIV_FLAGS_USES_ION_DMA_HEAP 0 4096 0x7f0000001000 0 (-1) 0)) =
  mk_outcome 0
    (Some (private_handle_ctor process_100 ion_handle_written
             PRIV_FLAGS_USES_ION_DMA_HEAP 0 4096 0x7f0000001000 0 (-1) 0))
    [].
Proof.
  assert (Hv : validate
                 (Some (private_handle_ctor process_100 ion_handle_written
                          PRIV_FLAGS_USES_ION_DMA_HEAP 0 4096 0x7f0000001000
                          0 (-1) 0)) = 0) by reflexivity.
  assert (Hion : ~ ion_backed
                     (private_handle_ctor process_100 ion_handle_written
                        PRIV_FLAGS_USES_ION_DMA_HEAP 0 4096 0x7f0000001000
                        0 (-1) 0)) by (intros H; apply H; reflexivity).
  destruct (no_sync_without_ion process_100 _ 0x30 Hv Hion) as [_ Hunlock].
  exact Hunlock.
Defined.

Lemma write_lock_then_unlock_witness :
  calls (gralloc_unlock process_100
           (after (gralloc_lock process_100 (Some ion_handle) 0x30))) =
  [call_hw_get_module; call_ion_sync_fd 3 7].
Proof.
  assert (Hv : validate (Some ion_handle) = 0) by reflexivity.
  assert (Hion : ion_backed ion_handle) by discriminate.
  assert (Hw : cpu_write 0x30) by discriminate.
  rewrite (write_lock_then_unlock process_100 process_100 ion_handle 0x30
             Hv Hion Hw).
  reflexivity.
Defined.

Lemma unlock_after_unregister_silent_witness :
  calls (gralloc_unlock process_100
           (after (gralloc_unregister_buffer process_100
                     (after (gralloc_lock process_100 (Some ion_handle)
                               0x30))))) = [].
Proof.
  assert (Hv : validate (Some ion_handle) = 0) by reflexivity.
  assert (Hfb : ~ framebuffer_backed ion_handle)
    by (intros H; apply H; reflexivity).
  assert (Hpid : pid ion_handle = getpid process_100) by reflexivity.
  rewrite (unlock_after_unregister_silent process_100 process_100 process_100
             ion_handle 0x30 Hv Hfb Hpid).
  reflexivity.
Defined.

Lemma constructed_handle_owned_by_creator_witness :
  filter is_munmap
    (calls (gralloc_unregister_buffer process_100
              (Some (private_handle_ctor process_100 fb_handle
                       PRIV_FLAGS_USES_ION 0x33 4096 0x7f0000001000 0 (-1)
                       0)))) =
  [call_munmap 0x7f0000001000 4096].
Proof.
  assert (Hfb : Z.land PRIV_FLAGS_USES_ION PRIV_FLAGS_FRAMEBUFFER = 0)
    by reflexivity.
  assert (Hion : Z.land PRIV_FLAGS_USES_ION PRIV_FLAGS_USES_ION <> 0)
    by discriminate.
  assert (Hother : getpid process_200 <> getpid process_100) by discriminate.
  destruct (constructed_handle_owned_by_creator process_100 process_200
              fb_handle PRIV_FLAGS_USES_ION 0x33 4096 0x7f0000001000 0 (-1) 0
              Hfb Hion Hother) as (_ & Hcalls & _).
  exact Hcalls.
Defined.

Lemma negative_size_wraps_witness :
  filter is_munmap
    (calls (gralloc_unregister_buffer process_100
              (Some (private_handle_ctor process_100 ion_handle
                       PRIV_FLAGS_USES_ION 0x33 (-4096) 0x7f0000001000 0
                       (-1) 0)))) =
  [call_munmap 0x7f0000001000 0xfffffffffffff000].
Proof.
  assert (Hv : validate
                 (Some (private_handle_ctor process_100 ion_handle
                          PRIV_FLAGS_USES_ION 0x33 (-4096) 0x7f0000001000 0
                          (-1) 0)) = 0) by reflexivity.
  assert (Hfb : ~ framebuffer_backed
                    (private_handle_ctor process_100 ion_handle
                       PRIV_FLAGS_USES_ION 0x33 (-4096) 0x7f0000001000 0
                       (-1) 0)) by (intros H; apply H; reflexivity).
  assert (Hion : ion_backed
                   (private_handle_ctor process_100 ion_handle
                      PRIV_FLAGS_USES_ION 0x33 (-4096) 0x7f0000001000 0
                      (-1) 0)) by discriminate.
  assert (Hsize : - 2 ^ size_t_bits <= -4096 < 0)
    by (split; [discriminate | reflexivity]).
  exact (negative_size_wraps process_100 _ Hv Hfb Hion eq_refl Hsize).
Defined.
